(** * libfluid: the simulation driver, the transfer schemes and the spatial hash

    A shallow embedding of [src/src/simulation.cpp].  C++ [double] values are
    IEEE 754 binary64 numbers, modelled by the Standard Library's
    [spec_float] with its correctly rounded operations; [std::size_t] is a
    64-bit unsigned integer, modelled by [Z] with the wrap-around written out.
    The headers for vectors, particles, the grid, the spatial hash and the
    pressure solver are not part of the sources; what the code uses of them
    is modelled below and marked as such. *)

From Stdlib Require Import ZArith List Bool Lia ZifyBool SpecFloat.
From stdpp Require Import base option list functions fin_maps gmap.

Open Scope Z_scope.

(** ** Binary64 arithmetic *)

Definition double : Type := spec_float.

Definition prec : Z := 53.
Definition emax : Z := 1024.

Definition fadd : double -> double -> double := SFadd prec emax.
Definition fsub : double -> double -> double := SFsub prec emax.
Definition fmul : double -> double -> double := SFmul prec emax.
Definition fdiv : double -> double -> double := SFdiv prec emax.
Definition fsqrt : double -> double := SFsqrt prec emax.
Definition fabs : double -> double := SFabs.
Definition flt : double -> double -> bool := SFltb.
Definition fle : double -> double -> bool := SFleb.
Definition feq : double -> double -> bool := SFeqb.

Definition is_nan (a : double) : bool :=
  match a with S754_nan => true | _ => false end.

Definition is_zero (a : double) : bool :=
  match a with S754_zero _ => true | _ => false end.

Definition is_finite (a : double) : bool :=
  match a with S754_zero _ | S754_finite _ _ _ => true | _ => false end.

(** Conversion of an integer to the nearest binary64 value, as
    [static_cast<double>] of a [std::size_t] does. *)
Definition of_Z (n : Z) : double := binary_normalize prec emax n 0 false.

(** The binary64 value nearest to [m * 2^e]. *)
Definition lit (m e : Z) : double := binary_normalize prec emax m e false.

(** The literals of the source. *)
Definition f0 : double := S754_zero false.
Definition f1 : double := of_Z 1.
Definition fhalf : double := lit 1 (-1).
Definition finf : double := S754_infinity false.
(** [1e-6], that is [0x1.0c6f7a0b5ed8dp-20]. *)
Definition f1em6 : double := S754_finite false 4722366482869645 (-72).
(** [-981.0]. *)
Definition fm981 : double := SFopp (of_Z 981).
(** [0.033], that is [0x1.0e5604189374cp-5]. *)
Definition f0033 : double := S754_finite false 4755801206503244 (-57).

(** [std::max(a, b)] is [(a < b) ? b : a]; [std::min(a, b)] is
    [(b < a) ? b : a]; [std::clamp(v, lo, hi)] is
    [(v < lo) ? lo : (hi < v) ? hi : v]. *)
Definition fmax (a b : double) : double := if flt a b then b else a.
Definition fmin (a b : double) : double := if flt b a then b else a.
Definition fclamp (v lo hi : double) : double :=
  if flt v lo then lo else if flt hi v then hi else v.

(** ** [std::size_t] *)

Definition size_max : Z := 2 ^ 64.
Definition wrap64 (n : Z) : Z := n mod size_max.
Definition size_sub (a b : Z) : Z := wrap64 (a - b).
Definition size_add (a b : Z) : Z := wrap64 (a + b).

(** The integer part of a binary64 value, rounded toward zero; [None] for
    an infinity or a NaN. *)
Definition ftrunc (a : double) : option Z :=
  match a with
  | S754_zero _ => Some 0
  | S754_finite s m e =>
      let n := if 0 <=? e then Z.pos m * 2 ^ e else Z.pos m / 2 ^ (- e) in
      Some (if s then - n else n)
  | _ => None
  end.

(** The largest integer not above a binary64 value. *)
Definition ffloor (a : double) : option Z :=
  match a with
  | S754_zero _ => Some 0
  | S754_finite s m e =>
      Some (if 0 <=? e
            then (if s then - (Z.pos m * 2 ^ e) else Z.pos m * 2 ^ e)
            else (if s then - Z.pos m else Z.pos m) / 2 ^ (- e))
  | _ => None
  end.

(** [static_cast<std::size_t>(v)]: the truncated value when it is
    representable, undefined behaviour ([None]) otherwise. *)
Definition to_size (a : double) : option Z :=
  match ftrunc a with
  | Some n => if (0 <=? n) && (n <? size_max) then Some n else None
  | None => None
  end.

(** ** Vectors *)

Record vec3 (A : Type) : Type := Vec3 { x : A; y : A; z : A }.
Arguments Vec3 {A} _ _ _.
Arguments x {A} _.
Arguments y {A} _.
Arguments z {A} _.

Abbreviation vec3d := (vec3 double).
Abbreviation vec3s := (vec3 Z).

Definition apply1 {A B} (f : A -> B) (a : vec3 A) : vec3 B :=
  Vec3 (f (x a)) (f (y a)) (f (z a)).
Definition apply2 {A B C} (f : A -> B -> C) (a : vec3 A) (b : vec3 B) : vec3 C :=
  Vec3 (f (x a) (x b)) (f (y a) (y b)) (f (z a) (z b)).
Definition apply3 {A B C D} (f : A -> B -> C -> D)
    (a : vec3 A) (b : vec3 B) (c : vec3 C) : vec3 D :=
  Vec3 (f (x a) (x b) (x c)) (f (y a) (y b) (y c)) (f (z a) (z b) (z c)).

Definition vadd : vec3d -> vec3d -> vec3d := apply2 fadd.
Definition vsub : vec3d -> vec3d -> vec3d := apply2 fsub.
Definition vmul : vec3d -> vec3d -> vec3d := apply2 fmul.
Definition vscale (a : vec3d) (k : double) : vec3d := apply1 (fun c => fmul c k) a.
Definition vscale_l (k : double) (a : vec3d) : vec3d := apply1 (fun c => fmul k c) a.
Definition vdiv (a : vec3d) (k : double) : vec3d := apply1 (fun c => fdiv c k) a.
Definition vzero : vec3d := Vec3 f0 f0 f0.
Definition vec3d_of_size (a : vec3s) : vec3d := apply1 of_Z a.

(** Modelled from the spec: [squared_length] of the vector header, which is
    not part of the sources, as the sum of the squared components. *)
Definition squared_length (a : vec3d) : double :=
  fadd (fadd (fmul (x a) (x a)) (fmul (y a) (y a))) (fmul (z a) (z a)).

(** Modelled from the spec: [lerp(a, b, t)] of the missing mathematics
    header, the linear interpolation between [a] and [b]. *)
Definition lerp (a b t : double) : double := fadd a (fmul (fsub b a) t).

Definition all3 {A} (P : A -> bool) (a : vec3 A) : bool :=
  P (x a) && P (y a) && P (z a).
Definition all3_2 {A B} (P : A -> B -> bool) (a : vec3 A) (b : vec3 B) : bool :=
  P (x a) (x b) && P (y a) (y b) && P (z a) (z b).

#[global] Instance vec3_eq_dec {A} `{EqDecision A} : EqDecision (vec3 A).
Proof. solve_decision. Defined.

#[global] Instance vec3_countable {A} `{Countable A} : Countable (vec3 A) :=
  inj_countable' (fun v : vec3 A => (x v, y v, z v))
                 (fun t => match t with (a, b, c) => Vec3 a b c end)
                 (fun v => match v with Vec3 _ _ _ => eq_refl end).

(** ** Particles, cells and the staggered grid *)

Record particle : Type := Particle {
  position : vec3d;
  velocity : vec3d;
  grid_index : vec3s;
  cx : vec3d;
  cy : vec3d;
  cz : vec3d
}.

Definition set_position (p : particle) (v : vec3d) : particle :=
  Particle v (velocity p) (grid_index p) (cx p) (cy p) (cz p).
Definition set_velocity (p : particle) (v : vec3d) : particle :=
  Particle (position p) v (grid_index p) (cx p) (cy p) (cz p).
Definition set_grid_index (p : particle) (i : vec3s) : particle :=
  Particle (position p) (velocity p) i (cx p) (cy p) (cz p).

(** [fluid_grid::cell::type]. *)
Inductive cell_kind : Type := air | fluid | solid.

#[global] Instance cell_kind_eq_dec : EqDecision cell_kind.
Proof. solve_decision. Defined.

Record cell : Type := Cell {
  cell_type : cell_kind;
  velocities_posface : vec3d
}.

(** Modelled from the spec: the dense 3D array of the grid header, which is
    not part of the sources, as its size and a total map from cell index
    to cell; only indices below the size are cells of the grid. *)
Record fluid_grid : Type := FluidGrid {
  get_size : vec3s;
  cells : vec3s -> cell
}.

Definition in_grid (sz idx : vec3s) : Prop :=
  0 <= x idx < x sz /\ 0 <= y idx < y sz /\ 0 <= z idx < z sz.

Definition grid_write (g : fluid_grid) (idx : vec3s) (c : cell) : fluid_grid :=
  FluidGrid (get_size g) (<[idx := c]> (cells g)).

(** [fluid_grid(sz)]: a grid of default-constructed cells. *)
Definition new_grid (sz : vec3s) : fluid_grid :=
  FluidGrid sz (fun _ => Cell air vzero).

(** ** The spatial hash *)

(** Modelled from the spec: the spatial hash of the missing header
    [space_hashing.h], a mapping from cell index to the list of particle
    references in that cell, in insertion order.  A reference is the
    particle's position in the particle array. *)
Record space_hashing : Type := SpaceHashing {
  hash_size : vec3s;
  buckets : gmap vec3s (list nat)
}.

Definition hash_resize (sz : vec3s) : space_hashing := SpaceHashing sz ∅.

Definition hash_clear (h : space_hashing) : space_hashing :=
  SpaceHashing (hash_size h) ∅.

Definition get_objects_at (h : space_hashing) (idx : vec3s) : list nat :=
  default [] (buckets h !! idx).

Definition add_object_at (h : space_hashing) (idx : vec3s) (obj : nat) : space_hashing :=
  SpaceHashing (hash_size h) (<[idx := get_objects_at h idx ++ [obj]]> (buckets h)).

(** The number of references the hash holds, over all its buckets. *)
Definition population (h : space_hashing) : nat :=
  map_fold (fun _ (b : list nat) n => (length b + n)%nat) 0%nat (buckets h).

(** The integers [lo, lo + 1, ..., hi]. *)
Definition zrange (lo hi : Z) : list Z :=
  map (fun k => lo + Z.of_nat k) (seq 0 (Z.to_nat (hi - lo + 1))).

(** The cells of the inclusive box [[lo, hi]], z outermost and x innermost. *)
Definition box_cells (lo hi : vec3s) : list vec3s :=
  flat_map (fun k => flat_map (fun j => map (fun i => Vec3 i j k)
     (zrange (x lo) (x hi))) (zrange (y lo) (y hi))) (zrange (z lo) (z hi)).

(** [for_all_nearby_objects(cell, back, fwd, f)] visits the objects of the
    cells [[cell - back, cell + fwd]], clamped to the grid; the model returns
    them in the order visited. *)
Definition nearby_objects (h : space_hashing) (c back fwd : vec3s) : list nat :=
  let lo := apply2 (fun a b => Z.max 0 (a - b)) c back in
  let hi := apply3 (fun a b n => Z.min (n - 1) (a + b)) c fwd (hash_size h) in
  flat_map (get_objects_at h) (box_cells lo hi).

(** [get_sorted_occupied_cells()]: the cells with a non-empty bucket, in the
    order of the array. *)
Definition get_sorted_occupied_cells (h : space_hashing) : list vec3s :=
  filter (fun c => get_objects_at h c <> [])
         (box_cells (Vec3 0 0 0) (apply1 (fun n => n - 1) (hash_size h))).

(** ** The simulation *)

(** [simulation::method]. *)
Inductive method : Type := pic | flip_blend | apic.

Record simulation : Type := Simulation {
  _particles : list particle;
  _grid : fluid_grid;
  _old_grid : fluid_grid;
  _space_hash : space_hashing;
  grid_offset : vec3d;
  cell_size : double;
  cfl_number : double;
  blending_factor : double;
  boundary_skin_width : double;
  gravity : vec3d;
  simulation_method : method
}.

Definition set_particles (s : simulation) (ps : list particle) : simulation :=
  Simulation ps (_grid s) (_old_grid s) (_space_hash s) (grid_offset s)
    (cell_size s) (cfl_number s) (blending_factor s) (boundary_skin_width s)
    (gravity s) (simulation_method s).
Definition set_grid (s : simulation) (g : fluid_grid) : simulation :=
  Simulation (_particles s) g (_old_grid s) (_space_hash s) (grid_offset s)
    (cell_size s) (cfl_number s) (blending_factor s) (boundary_skin_width s)
    (gravity s) (simulation_method s).
Definition set_old_grid (s : simulation) (g : fluid_grid) : simulation :=
  Simulation (_particles s) (_grid s) g (_space_hash s) (grid_offset s)
    (cell_size s) (cfl_number s) (blending_factor s) (boundary_skin_width s)
    (gravity s) (simulation_method s).
Definition set_space_hash (s : simulation) (h : space_hashing) : simulation :=
  Simulation (_particles s) (_grid s) (_old_grid s) h (grid_offset s)
    (cell_size s) (cfl_number s) (blending_factor s) (boundary_skin_width s)
    (gravity s) (simulation_method s).

Definition set_gravity (s : simulation) (g : vec3d) : simulation :=
  Simulation (_particles s) (_grid s) (_old_grid s) (_space_hash s) (grid_offset s)
    (cell_size s) (cfl_number s) (blending_factor s) (boundary_skin_width s)
    g (simulation_method s).
Definition set_cell_size (s : simulation) (h : double) : simulation :=
  Simulation (_particles s) (_grid s) (_old_grid s) (_space_hash s) (grid_offset s)
    h (cfl_number s) (blending_factor s) (boundary_skin_width s)
    (gravity s) (simulation_method s).




(** [simulation::cfl]. *)
Definition cfl (s : simulation) : double :=
  let maxlen :=
    fold_left (fun m p => fmax m (squared_length (velocity p))) (_particles s) f0 in
  fdiv (cell_size s) (fsqrt maxlen).

(** [simulation::_kernel]. *)
Definition _kernel (s : simulation) (p : vec3d) : double :=
  let p := vdiv p (cell_size s) in
  fmul (fmul (fmax f0 (fsub f1 (fabs (x p)))) (fmax f0 (fsub f1 (fabs (y p)))))
       (fmax f0 (fsub f1 (fabs (z p)))).

(** [simulation::_advect_particles]. *)
Definition _advect_particles (dt : double) (s : simulation) : simulation :=
  let skin_width :=
    Vec3 (boundary_skin_width s) (boundary_skin_width s) (boundary_skin_width s) in
  let min_corner := vadd (grid_offset s) skin_width in
  let max_corner :=
    vsub (vadd (vscale_l (cell_size s) (vec3d_of_size (get_size (_grid s))))
               (grid_offset s)) skin_width in
  set_particles s
    (map (fun p =>
            let p := set_position p (vadd (position p) (vscale (velocity p) dt)) in
            set_position p (apply3 fclamp (position p) min_corner max_corner))
         (_particles s)).

(** The lambda of [hash_particles]:
    [std::min(static_cast<std::size_t>(std::max(pos, 0.0)), max - 1)]. *)
Definition hash_coordinate (pos : double) (max : Z) : option Z :=
  n ← to_size (fmax pos f0);
  Some (Z.min n (size_sub max 1)).

Definition hash_cell (s : simulation) (p : particle) : option vec3s :=
  let grid_pos := vdiv (vsub (position p) (grid_offset s)) (cell_size s) in
  let sz := get_size (_grid s) in
  i ← hash_coordinate (x grid_pos) (x sz);
  j ← hash_coordinate (y grid_pos) (y sz);
  k ← hash_coordinate (z grid_pos) (z sz);
  Some (Vec3 i j k).

(** The loop of [hash_particles] over the particles from position [n] on. *)
Fixpoint hash_loop (s : simulation) (n : nat) (ps : list particle)
    (h : space_hashing) : option (list particle * space_hashing) :=
  match ps with
  | [] => Some ([], h)
  | p :: ps' =>
      c ← hash_cell s p;
      r ← hash_loop s (S n) ps' (add_object_at h c n);
      Some (set_grid_index p c :: r.1, r.2)
  end.

(** [simulation::hash_particles]; [None] when a cast is undefined. *)
Definition hash_particles (s : simulation) : option simulation :=
  r ← hash_loop s 0 (_particles s) (hash_clear (_space_hash s));
  Some (set_space_hash (set_particles s r.1) r.2).

(** ** Loops over the grid *)

(** [for (i = i0; ...; ++i) body], run [n] times. *)
Fixpoint for_index {S : Type} (n : nat) (i : Z) (body : Z -> S -> S) (st : S) : S :=
  match n with
  | O => st
  | S n' => for_index n' (i + 1) body (body i st)
  end.

(** [for (i = i0; ...; ++i, pos += step) body], run [n] times. *)
Fixpoint for_cells {S : Type} (n : nat) (i : Z) (pos step : double)
    (body : Z -> double -> S -> S) (st : S) : S :=
  match n with
  | O => st
  | S n' => for_cells n' (i + 1) (fadd pos step) step body (body i pos st)
  end.

(** The value of [pos] after [m] increments by [step]. *)
Fixpoint coord (pos step : double) (m : nat) : double :=
  match m with
  | O => pos
  | S m' => coord (fadd pos step) step m'
  end.

(** ** Particle to grid *)

Definition ones : vec3s := Vec3 1 1 1.

(** The accumulation of [sum_vel] and [sum_weight] over the particles the
    hash returns around a cell; [source] is the velocity a particle
    contributes.  The pair is [(sum_vel, sum_weight)]. *)
Definition accumulate (s : simulation) (idx : vec3s) (xface yface zface : vec3d)
    (source : particle -> vec3d) : vec3d * vec3d :=
  fold_left
    (fun (a : vec3d * vec3d) (i : nat) =>
       match _particles s !! i with
       | Some p =>
           let weights :=
             Vec3 (_kernel s (vsub (position p) xface))
                  (_kernel s (vsub (position p) yface))
                  (_kernel s (vsub (position p) zface)) in
           (vadd a.1 (vmul weights (source p)), vadd a.2 weights)
       | None => a
       end)
    (nearby_objects (_space_hash s) idx ones ones) (vzero, vzero).

(** The lambda [weight > 1e-6 ? vel / weight : 0.0]. *)
Definition normalize_face (vel weight : double) : double :=
  if flt f1em6 weight then fdiv vel weight else f0.

(** What the sweep stores in a cell that is not solid. *)
Definition transfer_cell (s : simulation) (idx : vec3s) (xface yface zface : vec3d)
    (source : vec3d -> vec3d -> vec3d -> particle -> vec3d) : cell :=
  let sums := accumulate s idx xface yface zface (source xface yface zface) in
  Cell (if decide (get_objects_at (_space_hash s) idx = []) then air else fluid)
       (apply2 normalize_face sums.1 sums.2).

(** The three nested loops shared by [_transfer_to_grid_pic] and
    [_transfer_to_grid_apic]. *)
Definition transfer_sweep (s : simulation)
    (source : vec3d -> vec3d -> vec3d -> particle -> vec3d) : fluid_grid :=
  let half_cell := fmul fhalf (cell_size s) in
  let sz := get_size (_grid s) in
  for_cells (Z.to_nat (z sz)) 0 (fadd (z (grid_offset s)) half_cell) (cell_size s)
    (fun k zpos g =>
       let zpos_face := fadd zpos half_cell in
       for_cells (Z.to_nat (y sz)) 0 (fadd (y (grid_offset s)) half_cell) (cell_size s)
         (fun j ypos g =>
            let ypos_face := fadd ypos half_cell in
            for_cells (Z.to_nat (x sz)) 0 (fadd (x (grid_offset s)) half_cell)
              (cell_size s)
              (fun i xpos g =>
                 if decide (cell_type (cells g (Vec3 i j k)) = solid) then g
                 else
                   let xpos_face := fadd xpos half_cell in
                   grid_write g (Vec3 i j k)
                     (transfer_cell s (Vec3 i j k)
                        (Vec3 xpos_face ypos zpos) (Vec3 xpos ypos_face zpos)
                        (Vec3 xpos ypos zpos_face) source))
              g)
         g)
    (_grid s).

(** [simulation::_transfer_to_grid_pic]. *)
Definition _transfer_to_grid_pic (s : simulation) : simulation :=
  set_grid s (transfer_sweep s (fun _ _ _ p => velocity p)).

Definition vdot (a b : vec3d) : double :=
  fadd (fadd (fmul (x a) (x b)) (fmul (y a) (y b))) (fmul (z a) (z b)).

(** [simulation::_transfer_to_grid_apic]. *)
Definition _transfer_to_grid_apic (s : simulation) : simulation :=
  set_grid s
    (transfer_sweep s
       (fun xface yface zface p =>
          let affine :=
            Vec3 (vdot (cx p) (vsub xface (position p)))
                 (vdot (cy p) (vsub yface (position p)))
                 (vdot (cz p) (vsub zface (position p))) in
          vadd (velocity p) affine)).

(** ** Grid to particle *)

(** [simulation::_get_negative_face_velocities]. *)
Definition _get_negative_face_velocities (g : fluid_grid) (id : vec3s) : vec3d :=
  Vec3
    (if 0 <? x id
     then x (velocities_posface (cells g (Vec3 (x id - 1) (y id) (z id)))) else f0)
    (if 0 <? y id
     then y (velocities_posface (cells g (Vec3 (x id) (y id - 1) (z id)))) else f0)
    (if 0 <? z id
     then z (velocities_posface (cells g (Vec3 (x id) (y id) (z id - 1)))) else f0).

(** The offset [t] of a particle within its cell. *)
Definition cell_offset (s : simulation) (p : particle) : vec3d :=
  vsub (vdiv (vsub (position p) (grid_offset s)) (cell_size s))
       (vec3d_of_size (grid_index p)).

(** The velocity a particle reads from a grid. *)
Definition interpolate (s : simulation) (g : fluid_grid) (p : particle) : vec3d :=
  apply3 lerp (_get_negative_face_velocities g (grid_index p))
    (velocities_posface (cells g (grid_index p))) (cell_offset s p).

(** [simulation::_transfer_from_grid_pic]. *)
Definition _transfer_from_grid_pic (s : simulation) : simulation :=
  set_particles s
    (map (fun p => set_velocity p (interpolate s (_grid s) p)) (_particles s)).

(** [simulation::_transfer_from_grid_flip]. *)
Definition _transfer_from_grid_flip (blend : double) (s : simulation) : simulation :=
  set_particles s
    (map (fun p =>
            let old_velocity := interpolate s (_old_grid s) p in
            let new_velocity := interpolate s (_grid s) p in
            set_velocity p
              (vadd new_velocity (vscale (vsub (velocity p) old_velocity) blend)))
         (_particles s)).

(** [simulation::_remove_boundary_velocities]. *)
Definition set_vel (c : cell) (v : vec3d) : cell := Cell (cell_type c) v.

Definition _remove_boundary_velocities (g : fluid_grid) : fluid_grid :=
  let sz := get_size g in
  let max_pos := apply1 (fun n => size_sub n 1) sz in
  let zero_x (g : fluid_grid) (idx : vec3s) :=
    let c := cells g idx in
    grid_write g idx
      (set_vel c (Vec3 f0 (y (velocities_posface c)) (z (velocities_posface c)))) in
  let zero_y (g : fluid_grid) (idx : vec3s) :=
    let c := cells g idx in
    grid_write g idx
      (set_vel c (Vec3 (x (velocities_posface c)) f0 (z (velocities_posface c)))) in
  let zero_z (g : fluid_grid) (idx : vec3s) :=
    let c := cells g idx in
    grid_write g idx
      (set_vel c (Vec3 (x (velocities_posface c)) (y (velocities_posface c)) f0)) in
  let g :=
    for_index (Z.to_nat (z sz)) 0
      (fun k g =>
         let g := for_index (Z.to_nat (y sz)) 0
                    (fun j g => zero_x g (Vec3 (x max_pos) j k)) g in
         for_index (Z.to_nat (x sz)) 0
           (fun i g => zero_y g (Vec3 i (y max_pos) k)) g)
      g in
  for_index (Z.to_nat (y sz)) 0
    (fun j g =>
       for_index (Z.to_nat (x sz)) 0
         (fun i g => zero_z g (Vec3 i j (z max_pos))) g)
    g.

(** [simulation::_transfer_to_grid_flip]. *)
Definition _transfer_to_grid_flip (s : simulation) : simulation :=
  let s := _transfer_from_grid_pic s in
  let s := set_old_grid s (_grid s) in
  set_old_grid s (_remove_boundary_velocities (_old_grid s)).

(** [simulation::_transfer_to_grid]. *)
Definition _transfer_to_grid (s : simulation) : simulation :=
  match simulation_method s with
  | pic => _transfer_to_grid_pic s
  | flip_blend => _transfer_to_grid_flip s
  | apic => _transfer_to_grid_apic s
  end.

(** [_grad]: the gradient of the trilinear interpolant. *)
Definition _grad (v000 v001 v010 v011 v100 v101 v110 v111 fx fy fz : double)
    : vec3d :=
  let om (a : double) := fsub f1 a in
  let neg (a : double) := SFopp a in
  let f000 := Vec3 (fmul (neg (om fy)) (om fz)) (fmul (neg (om fx)) (om fz))
                   (fmul (neg (om fx)) (om fy)) in
  let f001 := Vec3 (fmul (om fy) (om fz)) (fmul (neg fx) (om fz))
                   (fmul (neg fx) (om fy)) in
  let f010 := Vec3 (fmul (neg fy) (om fz)) (fmul (om fx) (om fz))
                   (fmul (neg (om fx)) fy) in
  let f011 := Vec3 (fmul fy (om fz)) (fmul fx (om fz)) (fmul (neg fx) fy) in
  let f100 := Vec3 (fmul (neg (om fy)) fz) (fmul (neg (om fx)) fz)
                   (fmul (om fx) (om fy)) in
  let f101 := Vec3 (fmul (om fy) fz) (fmul (neg fx) fz) (fmul fx (om fy)) in
  let f110 := Vec3 (fmul (neg fy) fz) (fmul (om fx) fz) (fmul (om fx) fy) in
  let f111 := Vec3 (fmul fy fz) (fmul fx fz) (fmul fx fy) in
  vadd (vadd (vadd (vadd (vadd (vadd (vadd
    (vscale f000 v000) (vscale f001 v001)) (vscale f010 v010)) (vscale f011 v011))
    (vscale f100 v100)) (vscale f101 v101)) (vscale f110 v110)) (vscale f111 v111).

(** [_clamp]: the clamped value and whether it was modified; the maximum
    itself counts as clamped. *)
Definition _clamp (val min max : Z) : Z * bool :=
  if val <? min then (min, true)
  else if max <=? val then (max, true)
  else (val, false).

(** The entry [vels[dz][dy][dx]] of [_transfer_from_grid_apic]. *)
Definition apic_vels (s : simulation) (p : particle) (dz dy dx : Z) : vec3d :=
  let sz := get_size (_grid s) in
  let gi := grid_index p in
  let rz := _clamp (size_add (z gi) dz) 1 (z sz) in
  let ry := _clamp (size_add (y gi) dy) 1 (y sz) in
  let rx := _clamp (size_add (x gi) dx) 1 (x sz) in
  let vel :=
    velocities_posface
      (cells (_grid s)
         (Vec3 (size_sub rx.1 1) (size_sub ry.1 1) (size_sub rz.1 1))) in
  Vec3 (if rx.2 then f0 else x vel)
       (if ry.2 then f0 else y vel)
       (if rz.2 then f0 else z vel).

(** The body of the loop of [_transfer_from_grid_apic]. *)
Definition apic_particle (s : simulation) (p : particle) : particle :=
  let t := cell_offset s p in
  let new_velocity := interpolate s (_grid s) p in
  let vels := apic_vels s p in
  let tmid0 := vsub t (Vec3 fhalf fhalf fhalf) in
  let dx := if flt (x tmid0) f0 then 0 else 1 in
  let dy := if flt (y tmid0) f0 then 0 else 1 in
  let dz := if flt (z tmid0) f0 then 0 else 1 in
  let tmid :=
    Vec3 (if flt (x tmid0) f0 then fadd (x tmid0) f1 else x tmid0)
         (if flt (y tmid0) f0 then fadd (y tmid0) f1 else y tmid0)
         (if flt (z tmid0) f0 then fadd (z tmid0) f1 else z tmid0) in
  let v000 := Vec3 (x (vels dz dy 0)) (y (vels dz 0 dx)) (z (vels 0 dy dx)) in
  let v001 := Vec3 (x (vels dz dy 1)) (y (vels dz 0 (dx + 1)))
                   (z (vels 0 dy (dx + 1))) in
  let v010 := Vec3 (x (vels dz (dy + 1) 0)) (y (vels dz 1 dx))
                   (z (vels 0 (dy + 1) dx)) in
  let v011 := Vec3 (x (vels dz (dy + 1) 1)) (y (vels dz 1 (dx + 1)))
                   (z (vels 0 (dy + 1) (dx + 1))) in
  let v100 := Vec3 (x (vels (dz + 1) dy 0)) (y (vels (dz + 1) 0 dx))
                   (z (vels 1 dy dx)) in
  let v101 := Vec3 (x (vels (dz + 1) dy 1)) (y (vels (dz + 1) 0 (dx + 1)))
                   (z (vels 1 dy (dx + 1))) in
  let v110 := Vec3 (x (vels (dz + 1) (dy + 1) 0)) (y (vels (dz + 1) 1 dx))
                   (z (vels 1 (dy + 1) dx)) in
  let v111 := Vec3 (x (vels (dz + 1) (dy + 1) 1)) (y (vels (dz + 1) 1 (dx + 1)))
                   (z (vels 1 (dy + 1) (dx + 1))) in
  Particle (position p) new_velocity (grid_index p)
    (vdiv (_grad (x v000) (x v001) (x v010) (x v011) (x v100) (x v101) (x v110)
                 (x v111) (x t) (y tmid) (z tmid)) (cell_size s))
    (vdiv (_grad (y v000) (y v001) (y v010) (y v011) (y v100) (y v101) (y v110)
                 (y v111) (x tmid) (y t) (z tmid)) (cell_size s))
    (vdiv (_grad (z v000) (z v001) (z v010) (z v011) (z v100) (z v101) (z v110)
                 (z v111) (x tmid) (y tmid) (z t)) (cell_size s)).

(** [simulation::_transfer_from_grid_apic]. *)
Definition _transfer_from_grid_apic (s : simulation) : simulation :=
  set_particles s (map (apic_particle s) (_particles s)).

(** [simulation::_transfer_from_grid]. *)
Definition _transfer_from_grid (s : simulation) : simulation :=
  match simulation_method s with
  | pic => _transfer_from_grid_pic s
  | flip_blend => _transfer_from_grid_flip (blending_factor s) s
  | apic => _transfer_from_grid_apic s
  end.

(** ** The substep and the driver *)

(** The external-force loop of [time_step]:
    [velocities_posface += vec3d(0.0, -981.0, 0.0) * dt] in every cell. *)
Definition add_external_forces (dt : double) (s : simulation) : simulation :=
  let sz := get_size (_grid s) in
  set_grid s
    (for_index (Z.to_nat (z sz)) 0
       (fun k g =>
          for_index (Z.to_nat (y sz)) 0
            (fun j g =>
               for_index (Z.to_nat (x sz)) 0
                 (fun i g =>
                    let c := cells g (Vec3 i j k) in
                    grid_write g (Vec3 i j k)
                      (set_vel c (vadd (velocities_posface c)
                                       (vscale (Vec3 f0 fm981 f0) dt))))
                 g)
            g)
       (_grid s)).

(** The pressure solver of the missing header [pressure_solver.h], a
    collaborator of the substep: what [solve] returns for the simulation, the
    fluid cells and the time step, and the simulation [apply_pressure] leaves. *)
Record pressure_solver : Type := PressureSolver {
  solve : simulation -> list vec3s -> double -> list double;
  apply_pressure : simulation -> list vec3s -> double -> list double -> simulation
}.

(** The block of [time_step] that solves for and applies the pressure. *)
Definition project (ps : pressure_solver) (dt : double) (s : simulation)
    : simulation :=
  let fluid_cells := get_sorted_occupied_cells (_space_hash s) in
  let pressure := solve ps s fluid_cells dt in
  apply_pressure ps s fluid_cells dt pressure.

(** The substep up to and including the external forces. *)
Definition before_project (dt : double) (s : simulation) : option simulation :=
  s ← hash_particles (_advect_particles dt s);
  Some (add_external_forces dt (_transfer_to_grid s)).

(** The pressure [solve] returns in the substep. *)
Definition solved_pressure (ps : pressure_solver) (dt : double) (s : simulation)
    : list double :=
  solve ps s (get_sorted_occupied_cells (_space_hash s)) dt.

(** [simulation::time_step(double)].  Once the pressure is applied the
    substep prints [*std::max_element(pressure.begin(), pressure.end())]:
    with an empty pressure that dereferences the end iterator, which is
    undefined, so the substep is [None] then. *)
Definition time_step (ps : pressure_solver) (dt : double) (s : simulation)
    : option simulation :=
  s ← before_project dt s;
  match solved_pressure ps dt s with
  | [] => None
  | _ :: _ => Some (_transfer_from_grid (project ps dt s))
  end.

(** [simulation::time_step()]. *)
Definition time_step_default (ps : pressure_solver) (s : simulation)
    : option simulation :=
  time_step ps (fmin (fmul (cfl_number s) (cfl s)) f0033) s.

(** How a run of the driver ends: it returns, it meets undefined behaviour,
    or it is still looping when the fuel is spent. *)
Inductive outcome : Type :=
  | Returned (s : simulation)
  | Undefined
  | Unfinished.

(** [simulation::update]: the sizes of the substeps it runs, in order, and
    how the run ends. *)
Fixpoint update (ps : pressure_solver) (fuel : nat) (dt : double) (s : simulation)
    : list double * outcome :=
  match fuel with
  | O => ([], Unfinished)
  | S fuel' =>
      let ts := fmul (cfl_number s) (cfl s) in
      if flt dt ts then
        ([dt], match time_step ps dt s with
               | Some s' => Returned s'
               | None => Undefined
               end)
      else
        match time_step ps ts s with
        | Some s' =>
            let r := update ps fuel' (fsub dt ts) s' in
            (ts :: r.1, r.2)
        | None => ([ts], Undefined)
        end
  end.

(** * Definitions the properties are stated with *)

(** ** Sample simulations *)

(** A 4 x 4 x 4 grid of unit cells at the origin, at rest, with the
    reference settings and no particle. *)
Definition sample_empty (m : method) : simulation :=
  Simulation [] (new_grid (Vec3 4 4 4)) (new_grid (Vec3 4 4 4))
    (hash_resize (Vec3 4 4 4)) vzero f1 (of_Z 3) f0
    (lit 1 (-10)) (Vec3 f0 fm981 f0) m.

Definition particle_at (pos vel : vec3d) : particle :=
  Particle pos vel (Vec3 0 0 0) vzero vzero vzero.

(** The sample with one particle. *)
Definition sample_one (m : method) (pos vel : vec3d) : simulation :=
  set_particles (sample_empty m) [particle_at pos vel].

(** A particle at (2, 2, 2) moving at 8 cells a second along x. *)
Definition sample_fast : simulation :=
  sample_one pic (Vec3 (of_Z 2) (of_Z 2) (of_Z 2)) (Vec3 (of_Z 8) f0 f0).

(** The sample with two particles, the second one outside the grid. *)
Definition sample_two : simulation :=
  set_particles (sample_empty pic)
    [particle_at (Vec3 (lit 5 (-1)) (lit 1 (-1)) (lit 7 (-1))) vzero;
     particle_at (Vec3 (SFopp f1) (of_Z 7) (lit 1 (-2))) vzero].

(** A simulation after [hash_particles], when that is defined. *)
Definition hashed (s : simulation) : simulation := default s (hash_particles s).

(** A particle at (2^-19, 0.975712, 0.5), in cell (0, 0, 0), moving at
    (1, 0, 0).  Its weight at the midpoint (1, 0.5, 0.5) of the +x face of
    that cell is [2^-19 * 0.524288 * 1], exactly the binary64 number [1e-6]. *)
Definition sample_threshold : simulation :=
  hashed (sample_one pic
            (Vec3 (lit 1 (-19)) (lit 8788432399241843 (-53)) (lit 1 (-1)))
            (Vec3 f1 f0 f0)).

(** A particle at the centre of cell (0, 0, 0). *)
Definition sample_centered (m : method) (vel : vec3d) : simulation :=
  hashed (sample_one m (Vec3 fhalf fhalf fhalf) vel).

(** The empty sample with the gravity the plug-in sets by default, zero. *)
Definition sample_weightless : simulation := set_gravity (sample_empty pic) vzero.

(** The empty sample with cell (0, 0, 0) solid. *)
Definition sample_solid : simulation :=
  set_grid (sample_empty pic)
    (grid_write (new_grid (Vec3 4 4 4)) (Vec3 0 0 0) (Cell solid vzero)).

(** A pressure solver that finds the zero pressure field, one value for
    each fluid cell, and leaves the simulation as it is. *)
Definition no_pressure : pressure_solver :=
  PressureSolver (fun _ fluid_cells _ => (fun _ => f0) <$> fluid_cells)
                 (fun s _ _ _ => s).

(** [1e-10], that is [0x1.b7cdfd9d7bdbbp-34]. *)
Definition f1em10 : double := S754_finite false 7737125245533627 (-86).

(** ** Advection *)

(** The bounds of the claim: [grid_offset + eps] and
    [grid_offset + size * cell_size - eps]. *)
Definition lower_corner (s : simulation) : vec3d :=
  apply1 (fun o => fadd o (boundary_skin_width s)) (grid_offset s).

Definition upper_corner (s : simulation) : vec3d :=
  apply2 (fun o n => fsub (fadd o (fmul (of_Z n) (cell_size s)))
                          (boundary_skin_width s))
         (grid_offset s) (get_size (_grid s)).

Definition within (lo hi v : vec3d) : bool :=
  all3_2 fle lo v && all3_2 fle v hi.

Definition advected (dt : double) (p : particle) : vec3d :=
  vadd (position p) (vscale (velocity p) dt).

(** ** The spatial hash *)

(** [std::clamp] on integers. *)
Definition clampZ (v lo hi : Z) : Z :=
  if v <? lo then lo else if hi <? v then hi else v.

(** A value whose cast to [std::size_t] is defined once negative values are
    replaced by zero: a finite value below 2^64. *)
Definition castable (g : double) : bool :=
  match ftrunc g with
  | Some n => n <? size_max
  | None => false
  end.

(** The position of a particle in cell units. *)
Definition grid_pos (s : simulation) (p : particle) : vec3d :=
  vdiv (vsub (position p) (grid_offset s)) (cell_size s).

(** The coordinate of the claim: [clamp(floor(g), 0, n - 1)]. *)
Definition claimed_coordinate (g : double) (n : Z) : option Z :=
  fl ← ffloor g; Some (clampZ fl 0 (n - 1)).

Definition claimed_grid_index (s : simulation) (p : particle) : option vec3s :=
  let g := grid_pos s p in
  let sz := get_size (_grid s) in
  i ← claimed_coordinate (x g) (x sz);
  j ← claimed_coordinate (y g) (y sz);
  k ← claimed_coordinate (z g) (z sz);
  Some (Vec3 i j k).

Definition valid_size (sz : vec3s) : Prop :=
  1 <= x sz < size_max /\ 1 <= y sz < size_max /\ 1 <= z sz < size_max.

(** One more occurrence of [i] in the bucket of [c] when particle [i] of
    the list [ps], which starts at position [n], is hashed to [c]. *)
Definition hashed_here (s : simulation) (n : nat) (ps : list particle)
    (c : vec3s) (i : nat) : nat :=
  match ps !! (i - n)%nat with
  | Some p => if decide ((n <= i)%nat /\ hash_cell s p = Some c) then 1 else 0
  | None => 0
  end.


(** ** The sweeps over the grid *)

Definition in_gridb (sz idx : vec3s) : bool :=
  (0 <=? x idx) && (x idx <? x sz) && ((0 <=? y idx) && (y idx <? y sz)) &&
  ((0 <=? z idx) && (z idx <? z sz)).

Definition half_cell (s : simulation) : double := fmul fhalf (cell_size s).

(** The centre of a cell as the sweep reaches it: half a cell past the grid
    offset, then one [cell_size] added per cell. *)
Definition cell_center (s : simulation) (idx : vec3s) : vec3d :=
  apply2 (fun o i => coord (fadd o (half_cell s)) (cell_size s) (Z.to_nat i))
         (grid_offset s) idx.

(** The midpoints of the three positive faces of a cell. *)
Definition xface (s : simulation) (idx : vec3s) : vec3d :=
  let c := cell_center s idx in Vec3 (fadd (x c) (half_cell s)) (y c) (z c).
Definition yface (s : simulation) (idx : vec3s) : vec3d :=
  let c := cell_center s idx in Vec3 (x c) (fadd (y c) (half_cell s)) (z c).
Definition zface (s : simulation) (idx : vec3s) : vec3d :=
  let c := cell_center s idx in Vec3 (x c) (y c) (fadd (z c) (half_cell s)).

(** What a sweep leaves in a cell of the grid. *)
Definition swept_cell (s : simulation)
    (source : vec3d -> vec3d -> vec3d -> particle -> vec3d)
    (idx : vec3s) (c : cell) : cell :=
  if decide (cell_type c = solid) then c
  else transfer_cell s idx (xface s idx) (yface s idx) (zface s idx) source.

(** The trilinear tent kernel of the claim, with [h] the cell size:
    [K(d) = max(0, 1 - |dx|/h) * max(0, 1 - |dy|/h) * max(0, 1 - |dz|/h)]. *)
Definition tent (h : double) (d : vec3d) : double :=
  fmul (fmul (fmax f0 (fsub f1 (fdiv (fabs (x d)) h)))
             (fmax f0 (fsub f1 (fdiv (fabs (y d)) h))))
       (fmax f0 (fsub f1 (fdiv (fabs (z d)) h))).

(** A positive number or plus infinity. *)
Definition is_positive (a : double) : bool :=
  match a with
  | S754_finite false _ _ | S754_infinity false => true
  | _ => false
  end.

(** The particles of the 3 x 3 x 3 block of cells around a cell, in the
    order in which the hash visits them. *)
Definition block_particles (s : simulation) (idx : vec3s) : list particle :=
  omap (fun i => _particles s !! i) (nearby_objects (_space_hash s) idx ones ones).

(** The sum of a list of binary64 values, from the left, starting at zero. *)
Definition fsum (l : list double) : double := fold_left fadd l f0.

(** The total weight of the particles around a cell at a face midpoint, and
    the weighted sum of one of their velocity components. *)
Definition face_weight (s : simulation) (idx : vec3s) (fc : vec3d) : double :=
  fsum (map (fun p => tent (cell_size s) (vsub (position p) fc))
            (block_particles s idx)).

Definition face_momentum (s : simulation) (idx : vec3s) (fc : vec3d)
    (component : vec3d -> double) : double :=
  fsum (map (fun p => fmul (tent (cell_size s) (vsub (position p) fc))
                           (component (velocity p)))
            (block_particles s idx)).

(** The face velocity the transfer stores: the weighted average when the
    weight exceeds [1e-6], zero otherwise. *)
Definition face_average (s : simulation) (idx : vec3s) (fc : vec3d)
    (component : vec3d -> double) : double :=
  if flt f1em6 (face_weight s idx fc)
  then fdiv (face_momentum s idx fc component) (face_weight s idx fc)
  else f0.

(** What the external-force loop leaves in a cell of the grid. *)
Definition forced_cell (dt : double) (c : cell) : cell :=
  set_vel c (vadd (velocities_posface c) (vscale (Vec3 f0 fm981 f0) dt)).

(** ** FLIP-blend *)

(** The transfer-to-grid phase of FLIP-blend as the specification words it:
    the PIC particle-to-grid transfer, then the PIC grid-to-particle
    transfer, then the copy of the grid into [_old_grid] with the boundary
    velocities removed. *)
Definition claimed_transfer_to_grid_flip (s : simulation) : simulation :=
  let s := _transfer_from_grid_pic (_transfer_to_grid_pic s) in
  set_old_grid s (_remove_boundary_velocities (_grid s)).

(** A cell with the velocities of the faces on the positive boundary of the
    grid set to zero. *)
Definition boundary_removed (sz idx : vec3s) (c : cell) : cell :=
  Cell (cell_type c)
    (Vec3 (if x idx =? x sz - 1 then f0 else x (velocities_posface c))
          (if y idx =? y sz - 1 then f0 else y (velocities_posface c))
          (if z idx =? z sz - 1 then f0 else z (velocities_posface c))).

(** ** The driver *)

(** The largest squared speed of a particle, as [cfl] computes it. *)
Definition max_squared_speed (s : simulation) : double :=
  fold_left (fun m p => fmax m (squared_length (velocity p))) (_particles s) f0.

(** The substep size the driver computes:
    [CFL_number * (cell_size / sqrt(max squared speed))]. *)
Definition substep_bound (s : simulation) : double :=
  fmul (cfl_number s) (fdiv (cell_size s) (fsqrt (max_squared_speed s))).

(** Every particle has zero velocity. *)
Definition at_rest (s : simulation) : Prop :=
  Forall (fun p => all3 is_zero (velocity p) = true) (_particles s).

(** How a substep ends the run it is the last substep of. *)
Definition last_substep (r : option simulation) : outcome :=
  match r with
  | Some s => Returned s
  | None => Undefined
  end.





(** ** Further definitions *)

(** The size of the substep [time_step()] runs. *)
Definition default_step (s : simulation) : double := fmin (substep_bound s) f0033.

(** Whether a run of the driver returned. *)
Definition returned (o : outcome) : bool :=
  match o with Returned _ => true | _ => false end.

(** A remaining time the driver can never use up: plus infinity or a NaN. *)
Definition unbounded_time (dt : double) : bool :=
  match dt with S754_nan | S754_infinity false => true | _ => false end.

(** Whether the squared speed of a particle is a number. *)
Definition has_speed (p : particle) : bool :=
  negb (is_nan (squared_length (velocity p))).

(** * Properties *)

(** ** Binary64 comparison and arithmetic *)

(** Closed facts are settled by evaluation. *)
Ltac by_computation := vm_compute; reflexivity.

Section Binary64.

(** The literals [1e-6], [1e-10] and [0.033] are the binary64 numbers with a
    53-bit mantissa nearest to the decimal values. *)
Lemma decimal_literals :
  (f1em6 = S754_finite false 4722366482869645 (-72) /\
   2 ^ 52 <= 4722366482869645 < 2 ^ 53 /\
   2 * Z.abs (4722366482869645 * 10 ^ 6 - 2 ^ 72) <= 10 ^ 6) /\
  (f1em10 = S754_finite false 7737125245533627 (-86) /\
   2 ^ 52 <= 7737125245533627 < 2 ^ 53 /\
   2 * Z.abs (7737125245533627 * 10 ^ 10 - 2 ^ 86) <= 10 ^ 10) /\
  (f0033 = S754_finite false 4755801206503244 (-57) /\
   2 ^ 52 <= 4755801206503244 < 2 ^ 53 /\
   2 * Z.abs (4755801206503244 * 1000 - 33 * 2 ^ 57) <= 1000).
Proof. repeat split; try reflexivity; vm_compute; discriminate. Qed.

Lemma compare_cont_Eq_antisym (m n : positive) :
  Pos.compare_cont Eq n m = CompOpp (Pos.compare_cont Eq m n).
Proof. rewrite Pos.compare_cont_antisym. reflexivity. Qed.

Lemma SFcompare_antisym (a b : double) (c : comparison) :
  SFcompare a b = Some c -> SFcompare b a = Some (CompOpp c).
Proof.
  destruct a as [sa|sa| |sa ma ea], b as [sb|sb| |sb mb eb]; simpl;
    try discriminate;
    try (intros [= <-]; repeat match goal with s : bool |- _ => destruct s end;
         reflexivity).
  intros [= <-]. f_equal.
  destruct sa, sb; simpl; try reflexivity;
    rewrite (Z.compare_antisym ea eb);
    destruct (ea ?= eb); simpl; try reflexivity;
    rewrite (compare_cont_Eq_antisym ma mb);
    destruct (Pos.compare_cont Eq ma mb); reflexivity.
Qed.

Lemma SFcompare_nan (a b : double) :
  SFcompare a b = None <-> is_nan a = true \/ is_nan b = true.
Proof.
  destruct a, b; simpl; split; intros H; try discriminate; auto;
    destruct H; discriminate.
Qed.

Lemma fle_refl (a : double) : is_nan a = false -> fle a a = true.
Proof.
  unfold fle, SFleb. destruct a as [s|s| |s m e]; simpl; try discriminate;
    intros _; try (destruct s; reflexivity).
  rewrite Z.compare_refl.
  destruct s; simpl; rewrite Pos.compare_cont_refl; reflexivity.
Qed.

Lemma fle_not_nan (a b : double) :
  fle a b = true -> is_nan a = false /\ is_nan b = false.
Proof.
  unfold fle, SFleb. destruct a, b; simpl; try discriminate; auto.
Qed.

(** When neither value is a NaN, [a < b] failing means [b <= a]. *)
Lemma flt_false_fle (a b : double) :
  is_nan a = false -> is_nan b = false -> flt a b = false -> fle b a = true.
Proof.
  intros Ha Hb. unfold flt, fle, SFltb, SFleb.
  destruct (SFcompare a b) as [c|] eqn:E.
  - rewrite (SFcompare_antisym _ _ _ E). destruct c; simpl; congruence.
  - apply SFcompare_nan in E. destruct E; congruence.
Qed.

(** [std::clamp] returns a value between its bounds when the bounds are
    ordered and the value is a number. *)
Lemma fclamp_bounds (v lo hi : double) :
  fle lo hi = true -> is_nan v = false ->
  fle lo (fclamp v lo hi) = true /\ fle (fclamp v lo hi) hi = true.
Proof.
  intros Hle Hv. destruct (fle_not_nan _ _ Hle) as [Hlo Hhi].
  unfold fclamp. destruct (flt v lo) eqn:E1.
  - split; [apply fle_refl; assumption | assumption].
  - destruct (flt hi v) eqn:E2.
    + split; [assumption | apply fle_refl; assumption].
    + split; apply flt_false_fle; assumption.
Qed.

Lemma fadd_comm (a b : double) : fadd a b = fadd b a.
Proof.
  unfold fadd, SFadd.
  destruct a as [sa|sa| |sa ma ea], b as [sb|sb| |sb mb eb];
    try reflexivity; try (destruct sa, sb; reflexivity).
  rewrite (Z.min_comm ea eb), Z.add_comm. reflexivity.
Qed.

Lemma fmul_comm (a b : double) : fmul a b = fmul b a.
Proof.
  unfold fmul, SFmul.
  destruct a as [sa|sa| |sa ma ea], b as [sb|sb| |sb mb eb];
    try reflexivity; try (rewrite xorb_comm; reflexivity).
  rewrite xorb_comm, Pos.mul_comm, Z.add_comm. reflexivity.
Qed.

End Binary64.

(** ** Advection *)

Section Advection.

Lemma advect_lookup (dt : double) (s : simulation) (i : nat) (p : particle) :
  _particles s !! i = Some p ->
  _particles (_advect_particles dt s) !! i =
    Some (set_position p
            (apply3 fclamp (advected dt p) (lower_corner s) (upper_corner s))).
Proof.
  intros H. unfold _advect_particles, set_particles; simpl.
  rewrite list_lookup_fmap, H; simpl. f_equal.
  unfold set_position, advected, lower_corner, upper_corner; simpl.
  f_equal. unfold apply3, apply2, apply1, vadd, vsub, vscale_l, vec3d_of_size,
    apply2, apply1; simpl.
  rewrite !(fadd_comm (fmul _ _) _), !(fmul_comm (cell_size s) _). reflexivity.
Qed.

Lemma within_clamp (v lo hi : vec3d) :
  all3_2 fle lo hi = true -> all3 (fun c => negb (is_nan c)) v = true ->
  within lo hi (apply3 fclamp v lo hi) = true.
Proof.
  unfold within, all3_2, all3, apply3; simpl. intros Hb Hn.
  repeat (apply andb_prop in Hb; destruct Hb as [Hb ?]).
  repeat (apply andb_prop in Hn; destruct Hn as [Hn ?]).
  repeat match goal with H : negb _ = true |- _ => apply negb_true_iff in H end.
  destruct (fclamp_bounds (x v) (x lo) (x hi)) as [-> ->]; try assumption.
  destruct (fclamp_bounds (y v) (y lo) (y hi)) as [-> ->]; try assumption.
  destruct (fclamp_bounds (z v) (z lo) (z hi)) as [-> ->]; try assumption.
  reflexivity.
Qed.

(** C8: advection moves every particle to
    [clamp(position + velocity * dt, grid_offset + eps,
    grid_offset + size * cell_size - eps)] component-wise and leaves its
    velocity as it was; so, when the lower corner is below the upper corner
    and the moved position is a number, the new position lies within the
    corners. *)
Theorem advect_particles_clamps (dt : double) (s : simulation) (i : nat)
    (p : particle) :
  _particles s !! i = Some p ->
  exists p' : particle,
    _particles (_advect_particles dt s) !! i = Some p' /\
    position p' =
      apply3 fclamp (advected dt p) (lower_corner s) (upper_corner s) /\
    velocity p' = velocity p /\
    (all3_2 fle (lower_corner s) (upper_corner s) = true ->
     all3 (fun c => negb (is_nan c)) (advected dt p) = true ->
     within (lower_corner s) (upper_corner s) (position p') = true).
Proof.
  intros H. eexists. split; [apply advect_lookup, H|].
  simpl. repeat split. intros Hb Hn. apply within_clamp; assumption.
Qed.

(** A particle moving at 8 cells a second from (2, 2, 2) for one second is
    stopped at the skin of the upper corner, x = 4 - 2^-10. *)
Lemma advect_particles_clamps_witness :
  exists p' : particle,
    _particles (_advect_particles f1 sample_fast) !! 0%nat = Some p' /\
    position p' =
      Vec3 (S754_finite false 9005000231485440 (-51)) (of_Z 2) (of_Z 2) /\
    velocity p' = Vec3 (of_Z 8) f0 f0 /\
    within (lower_corner sample_fast) (upper_corner sample_fast) (position p')
      = true.
Proof.
  destruct (advect_particles_clamps f1 sample_fast 0%nat
    (particle_at (Vec3 (of_Z 2) (of_Z 2) (of_Z 2)) (Vec3 (of_Z 8) f0 f0))
    eq_refl) as (p' & H1 & H2 & H3 & H4).
  exists p'. split; [exact H1|]. split; [|split; [exact H3|]].
  - rewrite H2. by_computation.
  - apply H4; by_computation.
Defined.

End Advection.

(** ** The spatial hash *)

Section SpatialHash.

Lemma get_objects_at_add (h : space_hashing) (c c' : vec3s) (i : nat) :
  get_objects_at (add_object_at h c i) c' =
    if decide (c' = c) then get_objects_at h c ++ [i] else get_objects_at h c'.
Proof.
  unfold get_objects_at, add_object_at; simpl.
  destruct (decide (c' = c)) as [->|Hne].
  - rewrite lookup_insert_eq. reflexivity.
  - rewrite lookup_insert_ne by congruence. reflexivity.
Qed.

Lemma population_add (h : space_hashing) (c : vec3s) (i : nat) :
  population (add_object_at h c i) = S (population h).
Proof.
  unfold population, add_object_at, get_objects_at; simpl.
  destruct (buckets h !! c) as [b|] eqn:E; simpl.
  - rewrite <- insert_delete_eq.
    rewrite map_fold_insert_L; [|intros; lia|apply lookup_delete_eq].
    rewrite (map_fold_delete_L _ _ c b (buckets h)); [|intros; lia|exact E].
    rewrite length_app; simpl. lia.
  - rewrite map_fold_insert_L; [|intros; lia|exact E]. simpl. reflexivity.
Qed.

Lemma hash_coordinate_floor (g : double) (n : Z) :
  1 <= n < size_max -> castable g = true ->
  exists v, hash_coordinate g n = Some v /\ claimed_coordinate g n = Some v /\
            0 <= v < n.
Proof.
  intros Hn Hc. unfold hash_coordinate, claimed_coordinate, castable in *.
  assert (Hw : size_sub n 1 = n - 1).
  { unfold size_sub, wrap64. apply Z.mod_small. lia. }
  rewrite Hw.
  destruct g as [s|s| |s m e]; simpl in Hc; try discriminate.
  - exists 0. unfold fmax, flt, SFltb, to_size; simpl.
    unfold clampZ; simpl. repeat split; try lia.
    + f_equal. lia.
    + destruct (n - 1 <? 0) eqn:E; [lia|reflexivity].
  - destruct s.
    + exists 0. unfold fmax, flt, SFltb, to_size; simpl.
      repeat split; try lia; [f_equal; lia|].
      f_equal. unfold clampZ.
      assert (Hneg : (if 0 <=? e then - (Z.pos m * 2 ^ e)
                      else - Z.pos m / 2 ^ (- e)) < 0).
      { destruct (0 <=? e) eqn:E.
        - assert (0 < 2 ^ e) by (apply Z.pow_pos_nonneg; lia). nia.
        - assert (0 < 2 ^ (- e)) by (apply Z.pow_pos_nonneg; lia).
          apply Z.div_lt_upper_bound; lia. }
      destruct (_ <? 0) eqn:E; [reflexivity|lia].
    + set (t := if 0 <=? e then Z.pos m * 2 ^ e else Z.pos m / 2 ^ (- e)) in *.
      assert (Ht : 0 <= t).
      { unfold t. destruct (0 <=? e) eqn:E.
        - assert (0 < 2 ^ e) by (apply Z.pow_pos_nonneg; lia). nia.
        - assert (0 < 2 ^ (- e)) by (apply Z.pow_pos_nonneg; lia).
          apply Z.div_pos; lia. }
      exists (Z.min t (n - 1)).
      unfold fmax, flt, SFltb, to_size; simpl. fold t.
      replace (0 <=? t) with true by lia. rewrite Hc; simpl.
      repeat split; try lia.
      f_equal. unfold clampZ.
      replace (if 0 <=? e then Z.pos m * 2 ^ e else Z.pos m / 2 ^ (- e)) with t
        by reflexivity.
      destruct (t <? 0) eqn:E1; [lia|].
      destruct (n - 1 <? t) eqn:E2; lia.
Qed.

Lemma hash_cell_floor (s : simulation) (p : particle) :
  valid_size (get_size (_grid s)) ->
  all3 castable (grid_pos s p) = true ->
  exists c, hash_cell s p = Some c /\ claimed_grid_index s p = Some c /\
            in_grid (get_size (_grid s)) c.
Proof.
  intros (Hx & Hy & Hz) Hc. unfold all3 in Hc.
  apply andb_prop in Hc. destruct Hc as [Hc Hcz].
  apply andb_prop in Hc. destruct Hc as [Hcx Hcy].
  destruct (hash_coordinate_floor _ _ Hx Hcx) as (i & Hi1 & Hi2 & Hi3).
  destruct (hash_coordinate_floor _ _ Hy Hcy) as (j & Hj1 & Hj2 & Hj3).
  destruct (hash_coordinate_floor _ _ Hz Hcz) as (k & Hk1 & Hk2 & Hk3).
  exists (Vec3 i j k). unfold hash_cell, claimed_grid_index.
  fold (grid_pos s p). rewrite Hi1, Hj1, Hk1, Hi2, Hj2, Hk2. simpl.
  unfold in_grid; simpl. repeat split; try reflexivity; lia.
Qed.

(** A case whose hypotheses contradict each other on the position of a
    particle in the list. *)
Ltac absurd_case :=
  exfalso;
  repeat match goal with H : _ /\ _ |- _ => destruct H end;
  first [ lia
        | match goal with
          | H : ~ _ |- _ => apply H; split; [lia | assumption]
          end ].

Lemma hashed_here_cons (s : simulation) (n : nat) (p : particle)
    (ps : list particle) (c : vec3s) (i : nat) :
  hashed_here s n (p :: ps) c i =
    ((if decide (i = n /\ hash_cell s p = Some c) then 1 else 0) +
     hashed_here s (S n) ps c i)%nat.
Proof.
  unfold hashed_here.
  assert (Hcases : (i < n \/ i = n \/ n < i)%nat) by lia.
  destruct Hcases as [Hlt | [-> | Hgt]].
  - replace (i - n)%nat with 0%nat by lia. simpl.
    destruct (ps !! (i - S n)%nat);
      repeat destruct (decide _); try reflexivity;
      absurd_case.
  - rewrite Nat.sub_diag. simpl.
    destruct (ps !! (n - S n)%nat);
      repeat destruct (decide _); try reflexivity;
      absurd_case.
  - replace (i - n)%nat with (S (i - S n)) by lia. simpl.
    destruct (ps !! (i - S n)%nat);
      repeat destruct (decide _); try reflexivity;
      absurd_case.
Qed.

(** The loop of [hash_particles]: it returns when every cast is defined; it
    changes nothing but the [grid_index] of the particles; every particle
    adds one reference to the hash, in the bucket of its cell. *)
Lemma hash_loop_spec (s : simulation) (ps : list particle) :
  forall (n : nat) (h : space_hashing),
  Forall (fun p => is_Some (hash_cell s p)) ps ->
  exists r, hash_loop s n ps h = Some r /\
    Forall2 (fun p p' => exists c, hash_cell s p = Some c /\
                                   p' = set_grid_index p c) ps r.1 /\
    population r.2 = (population h + length ps)%nat /\
    forall c i,
      count_occ Nat.eq_dec (get_objects_at r.2 c) i =
        (count_occ Nat.eq_dec (get_objects_at h c) i + hashed_here s n ps c i)%nat.
Proof.
  induction ps as [|p ps IH]; intros n h Hall.
  - exists ([], h). simpl. repeat split; [constructor|lia|].
    intros c i. unfold hashed_here. rewrite lookup_nil. lia.
  - inversion Hall as [|? ? [c0 Hc0] Hall']; subst.
    destruct (IH (S n) (add_object_at h c0 n) Hall') as (r & Hr & Hf & Hp & Hcnt).
    exists (set_grid_index p c0 :: r.1, r.2). simpl. rewrite Hc0; simpl.
    rewrite Hr; simpl. repeat split.
    + constructor; [exists c0; split; [assumption|reflexivity]|assumption].
    + rewrite Hp, population_add. lia.
    + intros c i. rewrite Hcnt, get_objects_at_add, hashed_here_cons.
      destruct (decide (c = c0)) as [->|Hne].
      * rewrite count_occ_app; simpl.
        destruct (Nat.eq_dec n i) as [->|Hni].
        -- rewrite decide_True by (split; [reflexivity|assumption]). lia.
        -- rewrite decide_False by (intros [? _]; congruence). lia.
      * rewrite decide_False by (intros [_ ?]; congruence). lia.
Qed.

Lemma population_clear (h : space_hashing) : population (hash_clear h) = 0%nat.
Proof. unfold population, hash_clear; simpl. apply map_fold_empty. Qed.

(** C6: when the grid has at least one cell along each axis and every
    particle's position in cell units is finite and below 2^64,
    [hash_particles] returns, and afterwards every particle's [grid_index] is
    [clamp(floor((position - grid_offset) / cell_size), 0, size - 1)]
    component-wise, the particle occurs exactly once in the bucket of its
    [grid_index] and in no other bucket, and the buckets hold as many
    references as there are particles. *)
Theorem hash_particles_invariant (s : simulation) :
  valid_size (get_size (_grid s)) ->
  Forall (fun p => all3 castable (grid_pos s p) = true) (_particles s) ->
  exists s' : simulation,
    hash_particles s = Some s' /\
    length (_particles s') = length (_particles s) /\
    (forall (i : nat) (p : particle), _particles s !! i = Some p ->
       exists p' : particle,
         _particles s' !! i = Some p' /\
         position p' = position p /\ velocity p' = velocity p /\
         claimed_grid_index s p = Some (grid_index p') /\
         in_grid (get_size (_grid s')) (grid_index p') /\
         forall c : vec3s,
           count_occ Nat.eq_dec (get_objects_at (_space_hash s') c) i =
             if decide (c = grid_index p') then 1%nat else 0%nat) /\
    population (_space_hash s') = length (_particles s').
Proof.
  intros Hsz Hall.
  assert (Hsome : Forall (fun p => is_Some (hash_cell s p)) (_particles s)).
  { eapply Forall_impl; [exact Hall|]. intros p Hp. simpl in Hp.
    destruct (hash_cell_floor s p Hsz Hp) as (c & Hc & _). exists c. exact Hc. }
  destruct (hash_loop_spec s (_particles s) 0 (hash_clear (_space_hash s)) Hsome)
    as (r & Hr & Hf & Hp & Hcnt).
  exists (set_space_hash (set_particles s r.1) r.2).
  unfold hash_particles. rewrite Hr; simpl. split; [reflexivity|].
  split; [symmetry; exact (Forall2_length _ _ _ Hf)|].
  split.
  - intros i p Hi.
    destruct (Forall2_lookup_l _ _ _ _ _ Hf Hi) as (p' & Hi' & c & Hc & ->).
    exists (set_grid_index p c). split; [exact Hi'|]. simpl.
    rewrite Forall_lookup in Hall. specialize (Hall i p Hi). simpl in Hall.
    destruct (hash_cell_floor s p Hsz Hall) as (c' & Hc' & Hcl & Hin).
    assert (c' = c) by congruence. subst c'.
    repeat split; try assumption; try apply Hin.
    intros c1. rewrite Hcnt. unfold get_objects_at at 1, hash_clear; simpl.
    rewrite lookup_empty; simpl. unfold hashed_here.
    rewrite Nat.sub_0_r, Hi.
    destruct (decide (c1 = c)) as [->|Hne].
    + rewrite decide_True by (split; [lia|assumption]). reflexivity.
    + rewrite decide_False; [reflexivity|]. intros [_ ?]. congruence.
  - rewrite Hp, population_clear. simpl.
    exact (Forall2_length _ _ _ Hf).
Qed.

(** Of a particle at (2.5, 0.5, 3.5) and one at (-1, 7, 0.25), the first is
    hashed to cell (2, 0, 3) and the second to cell (0, 3, 0). *)
Lemma hash_particles_invariant_witness :
  exists s' : simulation,
    hash_particles sample_two = Some s' /\
    map grid_index (_particles s') = [Vec3 2 0 3; Vec3 0 3 0] /\
    get_objects_at (_space_hash s') (Vec3 2 0 3) = [0%nat] /\
    get_objects_at (_space_hash s') (Vec3 0 3 0) = [1%nat] /\
    population (_space_hash s') = 2%nat.
Proof.
  destruct (hash_particles_invariant sample_two) as (s' & H1 & H2 & H3 & H4).
  - unfold valid_size, size_max; simpl; lia.
  - repeat constructor; by_computation.
  - exists s'. split; [exact H1|].
    vm_compute in H1. injection H1 as <-.
    repeat split; by_computation.
Defined.

End SpatialHash.

(** ** World positions and cell indices *)

Section CellIndex.




End CellIndex.



(** ** The sweeps over the grid *)

Section Sweeps.

Lemma for_index_for_cells {S : Type} (body : Z -> S -> S) (n : nat) :
  forall i st, for_index n i body st = for_cells n i f0 f0 (fun i _ => body i) st.
Proof.
  induction n as [|n IH]; intros i st; cbn [for_index for_cells]; [reflexivity|].
  rewrite IH. reflexivity.
Qed.

Lemma cells_grid_write (g : fluid_grid) (idx idx' : vec3s) (c : cell) :
  cells (grid_write g idx c) idx' = if decide (idx = idx') then c else cells g idx'.
Proof.
  unfold grid_write; simpl. destruct (decide (idx = idx')) as [->|Hne].
  - apply fn_lookup_insert.
  - apply fn_lookup_insert_ne. exact Hne.
Qed.

Lemma vec3_eq_iff (idx : vec3s) (i j k : Z) :
  Vec3 i j k = idx <-> x idx = i /\ y idx = j /\ z idx = k.
Proof.
  destruct idx as [a b c]; simpl. split.
  - intros [= -> -> ->]. auto.
  - intros (-> & -> & ->). reflexivity.
Qed.

Section OneLoop.

Variable ix : vec3s -> Z.
Variable R : vec3s -> bool.
Variable T : double -> vec3s -> cell -> cell.
Variable body : Z -> double -> fluid_grid -> fluid_grid.

Hypothesis body_cells : forall i pos g idx,
  cells (body i pos g) idx =
    if (ix idx =? i) && R idx then T pos idx (cells g idx) else cells g idx.
Hypothesis body_size : forall i pos g, get_size (body i pos g) = get_size g.

Lemma for_cells_size (n : nat) : forall i pos step g,
  get_size (for_cells n i pos step body g) = get_size g.
Proof.
  induction n as [|n IH]; intros i pos step g; simpl; [reflexivity|].
  rewrite IH. apply body_size.
Qed.

(** A loop whose iteration [i] rewrites the cells [idx] with [ix idx = i]
    rewrites each cell of its range once, at its own iteration. *)
Lemma for_cells_cells (n : nat) : forall i pos step g idx,
  cells (for_cells n i pos step body g) idx =
    if (i <=? ix idx) && (ix idx <? i + Z.of_nat n) && R idx
    then T (coord pos step (Z.to_nat (ix idx - i))) idx (cells g idx)
    else cells g idx.
Proof.
  induction n as [|n IH]; intros i pos step g idx.
  - cbn [for_cells]. rewrite Nat2Z.inj_0, Z.add_0_r.
    destruct (Z.leb_spec i (ix idx)), (Z.ltb_spec (ix idx) i); simpl;
      try reflexivity; lia.
  - cbn [for_cells]. rewrite IH, body_cells.
    destruct (Z.eq_dec (ix idx) i) as [E|E].
    + replace (i + 1 <=? ix idx) with false by lia.
      replace (ix idx =? i) with true by lia.
      replace (i <=? ix idx) with true by lia.
      replace (ix idx <? i + Z.of_nat (S n)) with true by lia.
      replace (ix idx - i) with 0 by lia. reflexivity.
    + replace (ix idx =? i) with false by lia. cbn [andb].
      destruct (i + 1 <=? ix idx) eqn:E1.
      * replace (i <=? ix idx) with true by lia.
        replace (ix idx <? i + Z.of_nat (S n))
          with (ix idx <? i + 1 + Z.of_nat n) by lia.
        replace (Z.to_nat (ix idx - i)) with (S (Z.to_nat (ix idx - (i + 1))))
          by lia.
        reflexivity.
      * replace (i <=? ix idx) with false by lia. reflexivity.
Qed.

End OneLoop.

(** The same from index zero, over a size of the grid. *)
Lemma sweep_cells (ix : vec3s -> Z) (R : vec3s -> bool)
    (T : double -> vec3s -> cell -> cell)
    (body : Z -> double -> fluid_grid -> fluid_grid) :
  (forall i pos g idx,
     cells (body i pos g) idx =
       if (ix idx =? i) && R idx then T pos idx (cells g idx) else cells g idx) ->
  forall (n : Z) (pos step : double) (g : fluid_grid) (idx : vec3s),
    cells (for_cells (Z.to_nat n) 0 pos step body g) idx =
      if (0 <=? ix idx) && (ix idx <? n) && R idx
      then T (coord pos step (Z.to_nat (ix idx))) idx (cells g idx)
      else cells g idx.
Proof.
  intros H n pos step g idx.
  rewrite (for_cells_cells ix R T) by exact H.
  replace (ix idx - 0) with (ix idx) by lia.
  destruct (Z.leb_spec 0 (ix idx)), (Z.ltb_spec (ix idx) n); cbn [andb];
    try replace (ix idx <? 0 + Z.of_nat (Z.to_nat n)) with true by lia;
    try replace (ix idx <? 0 + Z.of_nat (Z.to_nat n)) with false by lia;
    reflexivity.
Qed.

Lemma for_index_cells (ix : vec3s -> Z) (R : vec3s -> bool)
    (T : vec3s -> cell -> cell) (body : Z -> fluid_grid -> fluid_grid) :
  (forall i g idx,
     cells (body i g) idx =
       if (ix idx =? i) && R idx then T idx (cells g idx) else cells g idx) ->
  forall (n : Z) (g : fluid_grid) (idx : vec3s),
    cells (for_index (Z.to_nat n) 0 body g) idx =
      if (0 <=? ix idx) && (ix idx <? n) && R idx then T idx (cells g idx)
      else cells g idx.
Proof.
  intros H n g idx. rewrite for_index_for_cells.
  apply (sweep_cells ix R (fun _ => T)). intros. apply H.
Qed.

Lemma for_index_size (body : Z -> fluid_grid -> fluid_grid) :
  (forall i g, get_size (body i g) = get_size g) ->
  forall (n : nat) (i : Z) (g : fluid_grid),
    get_size (for_index n i body g) = get_size g.
Proof.
  intros H n. induction n as [|n IH]; intros i g; simpl; [reflexivity|].
  rewrite IH. apply H.
Qed.

Lemma write_at_cells (g : fluid_grid) (i j k : Z) (f : cell -> cell) (idx : vec3s) :
  cells (grid_write g (Vec3 i j k) (f (cells g (Vec3 i j k)))) idx =
    if (x idx =? i) && ((y idx =? j) && (z idx =? k)) then f (cells g idx)
    else cells g idx.
Proof.
  rewrite cells_grid_write.
  destruct (decide (Vec3 i j k = idx)) as [<-|Hne].
  - simpl. rewrite !Z.eqb_refl. reflexivity.
  - replace ((x idx =? i) && ((y idx =? j) && (z idx =? k))) with false;
      [reflexivity|].
    symmetry. apply not_true_is_false. intros E. apply Hne.
    apply vec3_eq_iff. lia.
Qed.

(** The cells the sweep of a transfer leaves. *)
Lemma transfer_sweep_cells (s : simulation)
    (source : vec3d -> vec3d -> vec3d -> particle -> vec3d) (idx : vec3s) :
  cells (transfer_sweep s source) idx =
    if in_gridb (get_size (_grid s)) idx
    then swept_cell s source idx (cells (_grid s) idx)
    else cells (_grid s) idx.
Proof.
  unfold transfer_sweep.
  rewrite (sweep_cells z (fun _ => true)
    (fun zpos idx c =>
       if (0 <=? y idx) && (y idx <? y (get_size (_grid s))) &&
          ((0 <=? x idx) && (x idx <? x (get_size (_grid s))))
       then
         if decide (cell_type c = solid) then c
         else transfer_cell s idx
                (Vec3 (fadd (x (cell_center s idx)) (half_cell s))
                      (y (cell_center s idx)) zpos)
                (Vec3 (x (cell_center s idx))
                      (fadd (y (cell_center s idx)) (half_cell s)) zpos)
                (Vec3 (x (cell_center s idx)) (y (cell_center s idx))
                      (fadd zpos (half_cell s))) source
       else c)).
  - unfold in_gridb, swept_cell, xface, yface, zface.
    destruct ((0 <=? z idx) && (z idx <? z (get_size (_grid s)))),
             ((0 <=? x idx) && (x idx <? x (get_size (_grid s)))),
             ((0 <=? y idx) && (y idx <? y (get_size (_grid s)))); reflexivity.
  - intros k zpos g idx'.
    rewrite (sweep_cells y (fun idx => z idx =? k)
      (fun ypos idx c =>
         if (0 <=? x idx) && (x idx <? x (get_size (_grid s)))
         then
           if decide (cell_type c = solid) then c
           else transfer_cell s idx
                  (Vec3 (fadd (x (cell_center s idx)) (half_cell s)) ypos zpos)
                  (Vec3 (x (cell_center s idx)) (fadd ypos (half_cell s)) zpos)
                  (Vec3 (x (cell_center s idx)) ypos (fadd zpos (half_cell s)))
                  source
         else c)).
    + destruct (z idx' =? k),
               ((0 <=? y idx') && (y idx' <? y (get_size (_grid s))));
        reflexivity.
    + intros j ypos g' idx''.
      rewrite (sweep_cells x (fun idx => (y idx =? j) && (z idx =? k))
        (fun xpos idx c =>
           if decide (cell_type c = solid) then c
           else transfer_cell s idx
                  (Vec3 (fadd xpos (half_cell s)) ypos zpos)
                  (Vec3 xpos (fadd ypos (half_cell s)) zpos)
                  (Vec3 xpos ypos (fadd zpos (half_cell s))) source)).
      * destruct (y idx'' =? j), (z idx'' =? k),
                 ((0 <=? x idx'') && (x idx'' <? x (get_size (_grid s))));
          reflexivity.
      * intros i xpos g'' idx3.
        destruct (decide (cell_type (cells g'' (Vec3 i j k)) = solid)) as [Hs|Hs].
        -- destruct ((x idx3 =? i) && ((y idx3 =? j) && (z idx3 =? k))) eqn:E;
             [|reflexivity].
           assert (Vec3 i j k = idx3) as <- by (apply vec3_eq_iff; lia).
           rewrite decide_True by exact Hs. reflexivity.
        -- rewrite cells_grid_write.
           destruct (decide (Vec3 i j k = idx3)) as [<-|Hne].
           ++ simpl. rewrite !Z.eqb_refl. simpl.
              rewrite decide_False by exact Hs. reflexivity.
           ++ replace ((x idx3 =? i) && ((y idx3 =? j) && (z idx3 =? k)))
                with false; [reflexivity|].
              symmetry. apply not_true_is_false. intros E. apply Hne.
              apply vec3_eq_iff. lia.
Qed.

Lemma transfer_sweep_size (s : simulation)
    (source : vec3d -> vec3d -> vec3d -> particle -> vec3d) :
  get_size (transfer_sweep s source) = get_size (_grid s).
Proof.
  unfold transfer_sweep. apply for_cells_size. intros k zpos g.
  apply for_cells_size. intros j ypos g'.
  apply for_cells_size. intros i xpos g''.
  destruct (decide (cell_type (cells g'' (Vec3 i j k)) = solid)); reflexivity.
Qed.

Lemma SFabs_binary_round_aux (sg : bool) (m e : Z) (l : location) :
  SFabs (binary_round_aux prec emax sg m e l) = binary_round_aux prec emax false m e l.
Proof.
  unfold binary_round_aux.
  destruct (shr_fexp prec emax m e l) as [mrs' e'].
  destruct (shr_fexp prec emax _ e' loc_Exact) as [mrs'' e''].
  destruct (shr_m mrs''); simpl; try reflexivity.
  destruct (_ <=? _); reflexivity.
Qed.

(** Dividing by a positive number commutes with the absolute value. *)
Lemma fabs_fdiv (a h : double) :
  is_positive h = true -> fabs (fdiv a h) = fdiv (fabs a) h.
Proof.
  unfold fabs, fdiv, SFdiv.
  destruct h as [sh|sh| |sh mh eh]; try discriminate; destruct sh; try discriminate;
    intros _; destruct a as [sa|sa| |sa ma ea]; simpl; try reflexivity.
  destruct (SFdiv_core_binary prec emax (Z.pos ma) ea (Z.pos mh) eh) as [[mz ez] lz].
  rewrite xorb_false_r. apply SFabs_binary_round_aux.
Qed.

(** C++ [_kernel] is the tent kernel of the claim when the cell size is
    positive. *)
Lemma kernel_tent (s : simulation) (d : vec3d) :
  is_positive (cell_size s) = true -> _kernel s d = tent (cell_size s) d.
Proof.
  intros H. unfold _kernel, tent, vdiv, apply1; simpl.
  rewrite !(fabs_fdiv _ _ H). reflexivity.
Qed.

Lemma fold_left_lookup {A : Type} (ps : list particle) (step : A -> particle -> A)
    (l : list nat) : forall a : A,
  fold_left (fun a i => match ps !! i with Some p => step a p | None => a end) l a =
  fold_left step (omap (fun i => ps !! i) l) a.
Proof.
  induction l as [|i l IH]; intros a; simpl; [reflexivity|].
  rewrite IH. destruct (ps !! i); reflexivity.
Qed.

Lemma fold_left_sums (w1 w2 w3 : particle -> double) (v : particle -> vec3d)
    (ps : list particle) : forall a : vec3d * vec3d,
  fold_left (fun (a : vec3d * vec3d) p =>
               (vadd a.1 (vmul (Vec3 (w1 p) (w2 p) (w3 p)) (v p)),
                vadd a.2 (Vec3 (w1 p) (w2 p) (w3 p)))) ps a =
  (Vec3 (fold_left fadd (map (fun p => fmul (w1 p) (x (v p))) ps) (x a.1))
        (fold_left fadd (map (fun p => fmul (w2 p) (y (v p))) ps) (y a.1))
        (fold_left fadd (map (fun p => fmul (w3 p) (z (v p))) ps) (z a.1)),
   Vec3 (fold_left fadd (map w1 ps) (x a.2))
        (fold_left fadd (map w2 ps) (y a.2))
        (fold_left fadd (map w3 ps) (z a.2))).
Proof.
  induction ps as [|p ps IH]; intros [[a1 a2 a3] [b1 b2 b3]]; simpl;
    [reflexivity|].
  rewrite IH. reflexivity.
Qed.

(** The velocities the PIC transfer computes for a cell are the three face
    averages. *)
Lemma transfer_cell_pic (s : simulation) (idx : vec3s) :
  is_positive (cell_size s) = true ->
  velocities_posface
    (transfer_cell s idx (xface s idx) (yface s idx) (zface s idx)
       (fun _ _ _ p => velocity p)) =
  Vec3 (face_average s idx (xface s idx) x)
       (face_average s idx (yface s idx) y)
       (face_average s idx (zface s idx) z).
Proof.
  intros H. unfold transfer_cell, accumulate; simpl.
  rewrite fold_left_lookup.
  fold (block_particles s idx).
  rewrite (fold_left_sums
    (fun p => _kernel s (vsub (position p) (xface s idx)))
    (fun p => _kernel s (vsub (position p) (yface s idx)))
    (fun p => _kernel s (vsub (position p) (zface s idx))) velocity).
  assert (Hk : forall f : vec3d,
    map (fun p => _kernel s (vsub (position p) f)) (block_particles s idx) =
    map (fun p => tent (cell_size s) (vsub (position p) f)) (block_particles s idx)).
  { intros f. apply map_ext. intros p. apply kernel_tent, H. }
  assert (Hm : forall (f : vec3d) (component : vec3d -> double),
    map (fun p => fmul (_kernel s (vsub (position p) f)) (component (velocity p)))
        (block_particles s idx) =
    map (fun p => fmul (tent (cell_size s) (vsub (position p) f))
                       (component (velocity p))) (block_particles s idx)).
  { intros f component. apply map_ext. intros p.
    rewrite (kernel_tent _ _ H). reflexivity. }
  unfold apply2, face_average, face_weight, face_momentum, fsum, normalize_face;
    simpl.
  rewrite !Hk, (Hm (xface s idx) x), (Hm (yface s idx) y), (Hm (zface s idx) z).
  reflexivity.
Qed.

End Sweeps.

(** ** Particle to grid, PIC *)

Section TransferToGridPic.

Lemma fle_flt_false (a b : double) : fle a b = true -> flt b a = false.
Proof.
  unfold fle, flt, SFleb, SFltb. destruct (SFcompare a b) as [c|] eqn:E;
    [|discriminate].
  rewrite (SFcompare_antisym _ _ _ E). destruct c; simpl; congruence.
Qed.

(** C7, amended: in every cell of the grid that is not solid, the PIC
    particle-to-grid transfer sets each of the three face velocities to the
    weighted average [sum K(p.pos - f_center) * v_p / sum K(p.pos - f_center)]
    over the particles of the 3 x 3 x 3 block of cells around the cell, with
    [K] the tent kernel and [f_center] the face midpoint, when the total
    weight is greater than [1e-6], and to zero when the total weight is
    [1e-6] or less. *)
Theorem transfer_to_grid_pic_faces (s : simulation) (idx : vec3s) :
  in_grid (get_size (_grid s)) idx ->
  cell_type (cells (_grid s) idx) <> solid ->
  is_positive (cell_size s) = true ->
  velocities_posface (cells (_grid (_transfer_to_grid_pic s)) idx) =
    Vec3 (face_average s idx (xface s idx) x)
         (face_average s idx (yface s idx) y)
         (face_average s idx (zface s idx) z) /\
  (forall (fc : vec3d) (component : vec3d -> double),
     flt f1em6 (face_weight s idx fc) = true ->
     face_average s idx fc component =
       fdiv (face_momentum s idx fc component) (face_weight s idx fc)) /\
  (forall (fc : vec3d) (component : vec3d -> double),
     fle (face_weight s idx fc) f1em6 = true ->
     face_average s idx fc component = f0).
Proof.
  intros Hin Hsolid Hpos. split; [|split].
  - unfold _transfer_to_grid_pic; simpl. rewrite transfer_sweep_cells.
    replace (in_gridb (get_size (_grid s)) idx) with true
      by (unfold in_grid in Hin; unfold in_gridb; lia).
    unfold swept_cell. rewrite decide_False by exact Hsolid.
    apply transfer_cell_pic, Hpos.
  - intros fc component H. unfold face_average. rewrite H. reflexivity.
  - intros fc component H. unfold face_average.
    rewrite (fle_flt_false _ _ H). reflexivity.
Qed.

(** A particle at the centre of cell (0, 0, 0) moving at (1, 2, 3) gives
    the three positive faces of that cell the velocities 1, 2 and 3. *)
Lemma transfer_to_grid_pic_faces_witness :
  velocities_posface
    (cells (_grid (_transfer_to_grid_pic
                     (sample_centered pic (Vec3 f1 (of_Z 2) (of_Z 3)))))
           (Vec3 0 0 0)) = Vec3 f1 (of_Z 2) (of_Z 3).
Proof.
  destruct (transfer_to_grid_pic_faces
              (sample_centered pic (Vec3 f1 (of_Z 2) (of_Z 3))) (Vec3 0 0 0))
    as (H & _ & _).
  - repeat split; vm_compute; (reflexivity || discriminate).
  - vm_compute. discriminate.
  - by_computation.
  - rewrite H. by_computation.
Defined.

(** C7 as claimed fails where the total weight is exactly [1e-6]: the
    weight is not below [1e-6] and the weighted average is 1, but the cell,
    which is not solid, gets the face velocity 0. *)
Lemma transfer_to_grid_pic_threshold_counterexample :
  cell_type (cells (_grid sample_threshold) (Vec3 0 0 0)) = air /\
  face_weight sample_threshold (Vec3 0 0 0) (xface sample_threshold (Vec3 0 0 0))
    = f1em6 /\
  flt (face_weight sample_threshold (Vec3 0 0 0)
         (xface sample_threshold (Vec3 0 0 0))) f1em6 = false /\
  fdiv (face_momentum sample_threshold (Vec3 0 0 0)
          (xface sample_threshold (Vec3 0 0 0)) x)
       (face_weight sample_threshold (Vec3 0 0 0)
          (xface sample_threshold (Vec3 0 0 0))) = f1 /\
  x (velocities_posface
       (cells (_grid (_transfer_to_grid_pic sample_threshold)) (Vec3 0 0 0))) = f0.
Proof. repeat split; by_computation. Qed.

End TransferToGridPic.

(** ** External forces and solid cells *)

Section ExternalForces.

(** The cells the external-force loop leaves: every cell of the grid gets
    [(0, -981, 0) * dt] added, whatever its type. *)
Lemma add_external_forces_cells (dt : double) (s : simulation) (idx : vec3s) :
  cells (_grid (add_external_forces dt s)) idx =
    if in_gridb (get_size (_grid s)) idx
    then forced_cell dt (cells (_grid s) idx)
    else cells (_grid s) idx.
Proof.
  unfold add_external_forces; simpl.
  rewrite (for_index_cells z (fun _ => true)
    (fun idx c =>
       if (0 <=? y idx) && (y idx <? y (get_size (_grid s))) &&
          ((0 <=? x idx) && (x idx <? x (get_size (_grid s))))
       then forced_cell dt c else c)).
  - unfold in_gridb.
    destruct ((0 <=? z idx) && (z idx <? z (get_size (_grid s)))),
             ((0 <=? x idx) && (x idx <? x (get_size (_grid s)))),
             ((0 <=? y idx) && (y idx <? y (get_size (_grid s)))); reflexivity.
  - intros k g idx'.
    rewrite (for_index_cells y (fun idx => z idx =? k)
      (fun idx c =>
         if (0 <=? x idx) && (x idx <? x (get_size (_grid s)))
         then forced_cell dt c else c)).
    + destruct (z idx' =? k),
               ((0 <=? y idx') && (y idx' <? y (get_size (_grid s))));
        reflexivity.
    + intros j g' idx''.
      rewrite (for_index_cells x (fun idx => (y idx =? j) && (z idx =? k))
        (fun _ c => forced_cell dt c)).
      * destruct (y idx'' =? j), (z idx'' =? k),
                 ((0 <=? x idx'') && (x idx'' <? x (get_size (_grid s))));
          reflexivity.
      * intros i g'' idx3. apply (write_at_cells g'' i j k (forced_cell dt)).
Qed.

(** C2, on the code: the external-force loop adds [(0, -981, 0) * dt] to the
    face velocities of every cell of the grid, whatever the simulation's
    [gravity] is; with [gravity] zero and [dt] one second, a cell at rest
    ends with the velocity (0, -981, 0), where [gravity * dt] is zero. *)
Theorem external_forces_use_fixed_gravity :
  (forall (dt : double) (s : simulation) (g : vec3d) (idx : vec3s),
     velocities_posface
       (cells (_grid (add_external_forces dt (set_gravity s g))) idx) =
       if in_gridb (get_size (_grid s)) idx
       then vadd (velocities_posface (cells (_grid s) idx))
                 (vscale (Vec3 f0 fm981 f0) dt)
       else velocities_posface (cells (_grid s) idx)) /\
  gravity sample_weightless = vzero /\
  velocities_posface (cells (_grid sample_weightless) (Vec3 0 0 0)) = vzero /\
  vadd (velocities_posface (cells (_grid sample_weightless) (Vec3 0 0 0)))
       (vscale (gravity sample_weightless) f1) = vzero /\
  velocities_posface
    (cells (_grid (add_external_forces f1 sample_weightless)) (Vec3 0 0 0)) =
    Vec3 f0 fm981 f0.
Proof.
  split.
  - intros dt s g idx. rewrite add_external_forces_cells. simpl.
    destruct (in_gridb (get_size (_grid s)) idx); reflexivity.
  - repeat split; by_computation.
Qed.

Lemma transfer_to_grid_solid (s : simulation) (idx : vec3s) :
  cell_type (cells (_grid s) idx) = solid ->
  cells (_grid (_transfer_to_grid s)) idx = cells (_grid s) idx.
Proof.
  intros H. unfold _transfer_to_grid.
  destruct (simulation_method s); simpl; try reflexivity;
    rewrite transfer_sweep_cells; unfold swept_cell;
    rewrite decide_True by exact H;
    destruct (in_gridb (get_size (_grid s)) idx); reflexivity.
Qed.

Lemma transfer_from_grid_grid (s : simulation) :
  _grid (_transfer_from_grid s) = _grid s.
Proof. unfold _transfer_from_grid. destruct (simulation_method s); reflexivity. Qed.

Lemma hash_particles_grid (s s' : simulation) :
  hash_particles s = Some s' -> _grid s' = _grid s.
Proof.
  unfold hash_particles. destruct (hash_loop _ _ _ _); simpl; [|discriminate].
  intros [= <-]. reflexivity.
Qed.

(** C4, amended: the velocities stored in a solid cell are left as they are
    by advection, by the hashing, by the particle-to-grid transfer of every
    method and by the grid-to-particle transfer of every method; the
    external-force loop does change them, adding [(0, -981, 0) * dt] as in
    every other cell of the grid. *)
Theorem solid_cell_phases (dt : double) (s : simulation) (idx : vec3s) :
  cell_type (cells (_grid s) idx) = solid ->
  cells (_grid (_advect_particles dt s)) idx = cells (_grid s) idx /\
  (forall s' : simulation,
     hash_particles s = Some s' -> cells (_grid s') idx = cells (_grid s) idx) /\
  cells (_grid (_transfer_to_grid s)) idx = cells (_grid s) idx /\
  cells (_grid (_transfer_from_grid s)) idx = cells (_grid s) idx /\
  (in_grid (get_size (_grid s)) idx ->
   cells (_grid (add_external_forces dt s)) idx =
     Cell solid (vadd (velocities_posface (cells (_grid s) idx))
                      (vscale (Vec3 f0 fm981 f0) dt))).
Proof.
  intros H. split; [reflexivity|]. split.
  { intros s' Hs. rewrite (hash_particles_grid _ _ Hs). reflexivity. }
  split; [apply transfer_to_grid_solid, H|].
  split; [rewrite transfer_from_grid_grid; reflexivity|].
  intros Hin. rewrite add_external_forces_cells.
  replace (in_gridb (get_size (_grid s)) idx) with true
    by (unfold in_grid in Hin; unfold in_gridb; lia).
  unfold forced_cell, set_vel. rewrite H. reflexivity.
Qed.

(** The solid cell (0, 0, 0) of the sample keeps its velocity through the
    transfers and gets (0, -981, 0) from the external forces of one second. *)
Lemma solid_cell_phases_witness :
  cells (_grid (_transfer_to_grid sample_solid)) (Vec3 0 0 0) = Cell solid vzero /\
  cells (_grid (_transfer_from_grid sample_solid)) (Vec3 0 0 0) = Cell solid vzero /\
  cells (_grid (add_external_forces f1 sample_solid)) (Vec3 0 0 0) =
    Cell solid (Vec3 f0 fm981 f0).
Proof.
  destruct (solid_cell_phases f1 sample_solid (Vec3 0 0 0) eq_refl)
    as (_ & _ & H1 & H2 & H3).
  split; [rewrite H1; reflexivity|].
  split; [rewrite H2; reflexivity|].
  rewrite H3; [by_computation|].
  repeat split; vm_compute; (reflexivity || discriminate).
Defined.

(** C4 as claimed fails in the external-force loop: a solid cell at rest has
    the velocity (0, -981, 0) after the loop has run with [dt] one second. *)
Lemma solid_cell_forces_counterexample :
  cell_type (cells (_grid sample_solid) (Vec3 0 0 0)) = solid /\
  velocities_posface (cells (_grid sample_solid) (Vec3 0 0 0)) = vzero /\
  velocities_posface
    (cells (_grid (add_external_forces f1 sample_solid)) (Vec3 0 0 0)) =
    Vec3 f0 fm981 f0.
Proof. repeat split; by_computation. Qed.

End ExternalForces.

(** ** FLIP-blend *)

Section FlipBlend.

(** The cells [_remove_boundary_velocities] leaves, in a grid with at least
    one cell along each axis. *)
Lemma remove_boundary_velocities_cells (g : fluid_grid) (idx : vec3s) :
  valid_size (get_size g) -> in_grid (get_size g) idx ->
  cells (_remove_boundary_velocities g) idx =
    boundary_removed (get_size g) idx (cells g idx).
Proof.
  intros (Hx & Hy & Hz) (Hix & Hiy & Hiz).
  unfold _remove_boundary_velocities.
  assert (Hw : forall n, 1 <= n < size_max -> size_sub n 1 = n - 1).
  { intros n Hn. unfold size_sub, wrap64. apply Z.mod_small. lia. }
  cbn [apply1 x y z]. rewrite (Hw _ Hx), (Hw _ Hy), (Hw _ Hz).
  set (nx := x (get_size g)) in *. set (ny := y (get_size g)) in *.
  set (nz := z (get_size g)) in *.
  rewrite (for_index_cells y (fun idx => z idx =? nz - 1)
    (fun idx c =>
       if (0 <=? x idx) && (x idx <? nx)
       then set_vel c (Vec3 (x (velocities_posface c)) (y (velocities_posface c)) f0)
       else c)).
  2:{ intros j g' idx'.
      rewrite (for_index_cells x (fun idx => (y idx =? j) && (z idx =? nz - 1))
        (fun _ c =>
           set_vel c (Vec3 (x (velocities_posface c)) (y (velocities_posface c)) f0))).
      - destruct (y idx' =? j), (z idx' =? nz - 1),
          ((0 <=? x idx') && (x idx' <? nx)); reflexivity.
      - intros i g'' idx''.
        rewrite (write_at_cells g'' i j (nz - 1)
          (fun c => set_vel c (Vec3 (x (velocities_posface c))
                                    (y (velocities_posface c)) f0))).
        destruct (x idx'' =? i), (y idx'' =? j), (z idx'' =? nz - 1); reflexivity. }
  rewrite (for_index_cells z (fun _ => true)
    (fun idx c =>
       let c1 := if (0 <=? y idx) && (y idx <? ny) && (x idx =? nx - 1)
                 then set_vel c (Vec3 f0 (y (velocities_posface c))
                                      (z (velocities_posface c)))
                 else c in
       if (0 <=? x idx) && (x idx <? nx) && (y idx =? ny - 1)
       then set_vel c1 (Vec3 (x (velocities_posface c1)) f0
                             (z (velocities_posface c1)))
       else c1)).
  2:{ intros k g' idx'.
      rewrite (for_index_cells x (fun idx => (y idx =? ny - 1) && (z idx =? k))
        (fun _ c =>
           set_vel c (Vec3 (x (velocities_posface c)) f0 (z (velocities_posface c))))).
      2:{ intros i g'' idx''.
          rewrite (write_at_cells g'' i (ny - 1) k
            (fun c => set_vel c (Vec3 (x (velocities_posface c)) f0
                                      (z (velocities_posface c))))).
          destruct (x idx'' =? i), (y idx'' =? ny - 1), (z idx'' =? k); reflexivity. }
      rewrite (for_index_cells y (fun idx => (x idx =? nx - 1) && (z idx =? k))
        (fun _ c =>
           set_vel c (Vec3 f0 (y (velocities_posface c)) (z (velocities_posface c))))).
      2:{ intros j g'' idx''.
          rewrite (write_at_cells g'' (nx - 1) j k
            (fun c => set_vel c (Vec3 f0 (y (velocities_posface c))
                                      (z (velocities_posface c))))).
          destruct (x idx'' =? nx - 1), (y idx'' =? j), (z idx'' =? k); reflexivity. }
      destruct (z idx' =? k), ((0 <=? y idx') && (y idx' <? ny)),
        ((0 <=? x idx') && (x idx' <? nx)), (x idx' =? nx - 1), (y idx' =? ny - 1);
        reflexivity. }
  unfold boundary_removed. fold nx ny nz.
  replace ((0 <=? x idx) && (x idx <? nx)) with true by lia.
  replace ((0 <=? y idx) && (y idx <? ny)) with true by lia.
  replace ((0 <=? z idx) && (z idx <? nz)) with true by lia.
  cbn [andb].
  destruct (x idx =? nx - 1), (y idx =? ny - 1), (z idx =? nz - 1);
    destruct (cells g idx) as [ty [vx vy vz]]; reflexivity.
Qed.

(** C1, on the code: [_transfer_to_grid_flip] runs the PIC grid-to-particle
    transfer only, so the grid is left as it was and never receives the
    particle velocities; it then copies that grid into [_old_grid] with the
    velocities of the outermost +x, +y and +z faces set to zero.  For a
    particle at the centre of cell (0, 0, 0) moving at (1, 0, 0) over a grid
    at rest, the +x face of the cell keeps the velocity 0 and the particle is
    stopped, where the particle-to-grid transfer followed by the
    grid-to-particle transfer gives the face the velocity 1 and the particle
    the velocity (0.5, 0, 0). *)
Theorem transfer_to_grid_flip_skips_particle_to_grid :
  (forall s : simulation,
     _grid (_transfer_to_grid_flip s) = _grid s /\
     _particles (_transfer_to_grid_flip s) =
       _particles (_transfer_from_grid_pic s) /\
     _old_grid (_transfer_to_grid_flip s) =
       _remove_boundary_velocities (_grid s)) /\
  (forall (s : simulation) (idx : vec3s),
     valid_size (get_size (_grid s)) -> in_grid (get_size (_grid s)) idx ->
     cells (_old_grid (_transfer_to_grid_flip s)) idx =
       boundary_removed (get_size (_grid s)) idx (cells (_grid s) idx)) /\
  simulation_method (sample_centered flip_blend (Vec3 f1 f0 f0)) = flip_blend /\
  velocities_posface
    (cells (_grid (_transfer_to_grid (sample_centered flip_blend (Vec3 f1 f0 f0))))
           (Vec3 0 0 0)) = vzero /\
  map velocity
    (_particles (_transfer_to_grid (sample_centered flip_blend (Vec3 f1 f0 f0)))) =
    [vzero] /\
  velocities_posface
    (cells (_grid (claimed_transfer_to_grid_flip
                     (sample_centered flip_blend (Vec3 f1 f0 f0))))
           (Vec3 0 0 0)) = Vec3 f1 f0 f0 /\
  map velocity
    (_particles (claimed_transfer_to_grid_flip
                   (sample_centered flip_blend (Vec3 f1 f0 f0)))) =
    [Vec3 fhalf f0 f0].
Proof.
  split; [intros s; repeat split|].
  split; [intros s idx Hs Hi; apply remove_boundary_velocities_cells; assumption|].
  repeat split; by_computation.
Qed.

Lemma hash_particles_method (s s' : simulation) :
  hash_particles s = Some s' -> simulation_method s' = simulation_method s.
Proof.
  unfold hash_particles. destruct (hash_loop _ _ _ _); simpl; [|discriminate].
  intros [= <-]. reflexivity.
Qed.

(** Under FLIP-blend the grid handed to the pressure solver is the grid of
    the previous substep with the external forces added: the particles have
    no part in it. *)
Lemma before_project_flip_grid (dt : double) (s s1 : simulation) (idx : vec3s) :
  simulation_method s = flip_blend -> before_project dt s = Some s1 ->
  cells (_grid s1) idx = cells (_grid (add_external_forces dt s)) idx.
Proof.
  intros Hm. unfold before_project.
  destruct (hash_particles (_advect_particles dt s)) as [s'|] eqn:E;
    [|discriminate].
  intros H. injection H as <-.
  pose proof (hash_particles_grid _ _ E) as Hg.
  pose proof (hash_particles_method _ _ E) as Hm'.
  simpl in Hg, Hm'. rewrite Hm in Hm'.
  assert (Hgt : _grid (_transfer_to_grid s') = _grid s')
    by (unfold _transfer_to_grid; rewrite Hm'; reflexivity).
  rewrite (add_external_forces_cells dt (_transfer_to_grid s') idx),
    (add_external_forces_cells dt s idx), Hgt, Hg.
  reflexivity.
Qed.

(** C3, on the code: under FLIP-blend the grid the pressure solver receives
    is the previous grid with the external forces added, whatever the
    particles do.  With the blending factor 0, one substep of 2^-7 s from
    a particle at the centre of cell (0, 0, 0) moving at (1, 0, 0) hands the
    pressure solver a +x face velocity of 1 under PIC and of 0 under
    FLIP-blend; with a solver that leaves the velocities alone the particle
    ends with the x velocity 0.5078125 under PIC and 0 under FLIP-blend,
    which differ by more than [1e-10]. *)
Theorem flip_blend_zero_differs_from_pic :
  (forall (dt : double) (s s1 : simulation) (idx : vec3s),
     simulation_method s = flip_blend -> before_project dt s = Some s1 ->
     cells (_grid s1) idx = cells (_grid (add_external_forces dt s)) idx) /\
  blending_factor (sample_centered flip_blend (Vec3 f1 f0 f0)) = f0 /\
  (fun a => map position (_particles a)) <$>
    before_project (lit 1 (-7)) (sample_centered pic (Vec3 f1 f0 f0)) =
  (fun b => map position (_particles b)) <$>
    before_project (lit 1 (-7)) (sample_centered flip_blend (Vec3 f1 f0 f0)) /\
  (fun a => x (velocities_posface (cells (_grid a) (Vec3 0 0 0)))) <$>
    before_project (lit 1 (-7)) (sample_centered pic (Vec3 f1 f0 f0)) = Some f1 /\
  (fun b => x (velocities_posface (cells (_grid b) (Vec3 0 0 0)))) <$>
    before_project (lit 1 (-7)) (sample_centered flip_blend (Vec3 f1 f0 f0))
    = Some f0 /\
  (fun a => map (fun p => x (velocity p)) (_particles a)) <$>
    time_step no_pressure (lit 1 (-7)) (sample_centered pic (Vec3 f1 f0 f0))
    = Some [lit 65 (-7)] /\
  (fun b => map (fun p => x (velocity p)) (_particles b)) <$>
    time_step no_pressure (lit 1 (-7)) (sample_centered flip_blend (Vec3 f1 f0 f0))
    = Some [f0] /\
  flt f1em10 (fabs (fsub (lit 65 (-7)) f0)) = true.
Proof.
  split; [exact before_project_flip_grid|]. repeat split; by_computation.
Qed.

End FlipBlend.

(** ** The driver *)

Section Driver.

Lemma substep_bound_cfl (s : simulation) :
  fmul (cfl_number s) (cfl s) = substep_bound s.
Proof. reflexivity. Qed.

(** One turn of the loop of [update]. *)
Lemma update_unfold (ps : pressure_solver) (fuel : nat) (dt : double)
    (s : simulation) :
  update ps (S fuel) dt s =
    if flt dt (substep_bound s) then ([dt], last_substep (time_step ps dt s))
    else match time_step ps (substep_bound s) s with
         | Some s' =>
             (substep_bound s ::
                (update ps fuel (fsub dt (substep_bound s)) s').1,
              (update ps fuel (fsub dt (substep_bound s)) s').2)
         | None => ([substep_bound s], Undefined)
         end.
Proof. reflexivity. Qed.

Lemma squared_length_zero (v : vec3d) :
  all3 is_zero v = true -> squared_length v = f0.
Proof.
  destruct v as [[a| | |] [b| | |] [c| | |]]; try discriminate.
  intros _. destruct a, b, c; reflexivity.
Qed.

Lemma max_squared_speed_at_rest (s : simulation) :
  at_rest s -> max_squared_speed s = f0.
Proof.
  unfold at_rest, max_squared_speed. generalize (_particles s) as l.
  induction l as [|p l IH]; intros H; simpl; [reflexivity|].
  inversion H as [|? ? Hp Hl]; subst.
  rewrite (squared_length_zero _ Hp). apply IH, Hl.
Qed.

(** With every particle at rest and a positive cell size and CFL number,
    the substep size the driver computes is plus infinity. *)
Lemma substep_bound_at_rest (s : simulation) :
  at_rest s -> is_positive (cell_size s) = true ->
  is_positive (cfl_number s) = true -> substep_bound s = finf.
Proof.
  intros Hr Hc Hn. unfold substep_bound.
  rewrite (max_squared_speed_at_rest _ Hr).
  destruct (cell_size s) as [| [|] | | [|] ? ?]; try discriminate;
    destruct (cfl_number s) as [| [|] | | [|] ? ?]; try discriminate;
    reflexivity.
Qed.

Lemma flt_finf (dt : double) : is_finite dt = true -> flt dt finf = true.
Proof. destruct dt; try discriminate; reflexivity. Qed.

(** C5, amended: [update] computes
    [ts = CFL_number * (cell_size / sqrt(max squared speed))]; when [ts] is
    greater than the remaining time it runs one substep of the remaining
    time and returns; otherwise, also when [ts] equals the remaining time,
    it runs a substep of size [ts], subtracts [ts] from the remaining time
    and goes round the loop again; and when every particle is at rest, the
    cell size and the CFL number are positive and the remaining time is
    finite, [ts] is plus infinity and the only substep takes the whole
    remaining time. *)
Theorem update_substeps (ps : pressure_solver) (fuel : nat) (dt : double)
    (s : simulation) :
  fmul (cfl_number s) (cfl s) = substep_bound s /\
  (flt dt (substep_bound s) = true ->
   update ps (S fuel) dt s = ([dt], last_substep (time_step ps dt s))) /\
  (flt dt (substep_bound s) = false ->
   forall s' : simulation,
     time_step ps (substep_bound s) s = Some s' ->
     update ps (S fuel) dt s =
       (substep_bound s :: (update ps fuel (fsub dt (substep_bound s)) s').1,
        (update ps fuel (fsub dt (substep_bound s)) s').2)) /\
  (at_rest s -> is_positive (cell_size s) = true ->
   is_positive (cfl_number s) = true -> is_finite dt = true ->
   substep_bound s = finf /\
   update ps (S fuel) dt s = ([dt], last_substep (time_step ps dt s))).
Proof.
  split; [reflexivity|]. split; [|split].
  - intros H. rewrite update_unfold, H. reflexivity.
  - intros H s' Hs. rewrite update_unfold, H, Hs. reflexivity.
  - intros Hr Hc Hn Hd.
    pose proof (substep_bound_at_rest s Hr Hc Hn) as Hb.
    split; [exact Hb|].
    rewrite update_unfold, Hb, (flt_finf _ Hd). reflexivity.
Qed.

(** A run always starts with a substep, of the remaining time or of the
    size the driver computes. *)
Lemma update_first_substep (ps : pressure_solver) (fuel : nat) (dt : double)
    (s : simulation) :
  exists (t : double) (rest : list double),
    (update ps (S fuel) dt s).1 = t :: rest /\ (t = dt \/ t = substep_bound s).
Proof.
  rewrite update_unfold. destruct (flt dt (substep_bound s)).
  - exists dt, []. split; [reflexivity|left; reflexivity].
  - destruct (time_step ps (substep_bound s) s) as [s'|].
    + eexists _, _. split; [reflexivity|right; reflexivity].
    + exists (substep_bound s), []. split; [reflexivity|right; reflexivity].
Qed.


Lemma fmap_is_Some {A B : Type} (f : A -> B) (o : option A) (b : B) :
  f <$> o = Some b -> is_Some o.
Proof. destruct o as [a|]; [eexists; reflexivity|discriminate]. Qed.

(** With no velocity anywhere the driver runs one substep of one second;
    with one particle moving at one cell a second and five seconds to go it
    starts with a substep of three seconds. *)
Lemma update_substeps_witness :
  (update no_pressure 1 f1 (sample_centered pic vzero)).1 = [f1] /\
  exists rest : list double,
    (update no_pressure 2 (of_Z 5) (sample_centered pic (Vec3 f1 f0 f0))).1 =
      of_Z 3 :: rest.
Proof.
  split.
  - destruct (update_substeps no_pressure 0 f1 (sample_centered pic vzero))
      as (_ & _ & _ & H).
    assert (Hr : at_rest (sample_centered pic vzero))
      by (unfold at_rest; vm_compute; repeat constructor).
    destruct (H Hr) as [_ ->]; try by_computation.
  - destruct (update_substeps no_pressure 1 (of_Z 5)
                (sample_centered pic (Vec3 f1 f0 f0))) as (_ & _ & H & _).
    destruct (fmap_is_Some (fun _ => tt)
                (time_step no_pressure
                   (substep_bound (sample_centered pic (Vec3 f1 f0 f0)))
                   (sample_centered pic (Vec3 f1 f0 f0))) tt) as [s' Hs'];
      [by_computation|].
    rewrite (H ltac:(by_computation) s' Hs'). cbn [fst].
    replace (substep_bound (sample_centered pic (Vec3 f1 f0 f0))) with (of_Z 3)
      by by_computation.
    eexists. reflexivity.
Defined.

(** C5 as claimed fails when [ts] equals the remaining time: with three
    seconds to go and [ts] three seconds the driver runs a substep of three
    seconds and, whatever the pressure solver does, does not return after
    it: either that substep is undefined, the solver having returned no
    pressure, or the driver runs a further substep; with a solver that
    leaves the velocities alone the further substep has size zero. *)
Lemma update_equal_step_counterexample :
  substep_bound (sample_centered pic (Vec3 f1 f0 f0)) = of_Z 3 /\
  feq (substep_bound (sample_centered pic (Vec3 f1 f0 f0))) (of_Z 3) = true /\
  (forall (ps : pressure_solver) (fuel : nat),
     update ps (S (S fuel)) (of_Z 3) (sample_centered pic (Vec3 f1 f0 f0)) =
       ([of_Z 3], Undefined) \/
     exists (t : double) (rest : list double),
       (update ps (S (S fuel)) (of_Z 3) (sample_centered pic (Vec3 f1 f0 f0))).1 =
         of_Z 3 :: t :: rest) /\
  (update no_pressure 5 (of_Z 3) (sample_centered pic (Vec3 f1 f0 f0))).1 =
    [of_Z 3; f0].
Proof.
  split; [by_computation|]. split; [by_computation|].
  split; [|by_computation].
  intros ps fuel. rewrite update_unfold.
  replace (flt (of_Z 3) (substep_bound (sample_centered pic (Vec3 f1 f0 f0))))
    with false by by_computation.
  destruct (time_step ps (substep_bound (sample_centered pic (Vec3 f1 f0 f0)))
              (sample_centered pic (Vec3 f1 f0 f0))) as [s'|].
  - right. cbn [fst].
    destruct (update_first_substep ps fuel
                (fsub (of_Z 3) (substep_bound (sample_centered pic (Vec3 f1 f0 f0))))
                s') as (t & rest & -> & _).
    replace (substep_bound (sample_centered pic (Vec3 f1 f0 f0))) with (of_Z 3)
      by by_computation.
    exists t, rest. reflexivity.
  - left.
    replace (substep_bound (sample_centered pic (Vec3 f1 f0 f0))) with (of_Z 3)
      by by_computation.
    reflexivity.
Qed.










End Driver.

(** ** Further properties of the hashing, the driver and the transfers *)

Section HashAgain.

Lemma hash_cell_ext (s s' : simulation) (p p' : particle) :
  _grid s' = _grid s -> grid_offset s' = grid_offset s ->
  cell_size s' = cell_size s -> position p' = position p ->
  hash_cell s' p' = hash_cell s p.
Proof.
  intros Hg Ho Hc Hp. unfold hash_cell. rewrite Hg, Ho, Hc, Hp. reflexivity.
Qed.

(** Run again on its own result, from the same hash, the loop of
    [hash_particles] gives that result back. *)
Lemma hash_loop_again (s s' : simulation) (ps : list particle) :
  _grid s' = _grid s -> grid_offset s' = grid_offset s ->
  cell_size s' = cell_size s ->
  forall (n : nat) (h : space_hashing) (r : list particle * space_hashing),
    hash_loop s n ps h = Some r -> hash_loop s' n r.1 h = Some r.
Proof.
  intros Hg Ho Hc. induction ps as [|p ps IH]; intros n h r H; simpl in H.
  - injection H as <-. reflexivity.
  - destruct (hash_cell s p) as [c|] eqn:Ec; simpl in H; [|discriminate].
    destruct (hash_loop s (S n) ps (add_object_at h c n)) as [r1|] eqn:E1;
      simpl in H; [|discriminate].
    injection H as <-. simpl.
    rewrite (hash_cell_ext s s' p (set_grid_index p c) Hg Ho Hc eq_refl), Ec.
    simpl. rewrite (IH _ _ _ E1). reflexivity.
Qed.

Lemma hash_loop_hash_size (s : simulation) (ps : list particle) :
  forall (n : nat) (h : space_hashing) (r : list particle * space_hashing),
    hash_loop s n ps h = Some r -> hash_size r.2 = hash_size h.
Proof.
  induction ps as [|p ps IH]; intros n h r H; simpl in H.
  - injection H as <-. reflexivity.
  - destruct (hash_cell s p) as [c|]; simpl in H; [|discriminate].
    destruct (hash_loop s (S n) ps (add_object_at h c n)) as [r1|] eqn:E1;
      simpl in H; [|discriminate].
    injection H as <-. simpl. rewrite (IH _ _ _ E1). reflexivity.
Qed.

(** X1: hashing the particles a second time changes nothing: whatever
    [hash_particles] returns is a simulation it maps to itself. *)
Theorem hash_particles_idempotent (s s1 : simulation) :
  hash_particles s = Some s1 -> hash_particles s1 = Some s1.
Proof.
  unfold hash_particles. intros H.
  destruct (hash_loop s 0 (_particles s) (hash_clear (_space_hash s)))
    as [r|] eqn:E; simpl in H; [|discriminate].
  injection H as <-. simpl.
  assert (Hc : hash_clear r.2 = hash_clear (_space_hash s)).
  { unfold hash_clear. rewrite (hash_loop_hash_size _ _ _ _ _ E). reflexivity. }
  rewrite Hc.
  rewrite (hash_loop_again s (set_space_hash (set_particles s r.1) r.2)
             (_particles s) eq_refl eq_refl eq_refl _ _ _ E).
  reflexivity.
Qed.

(** The sample with two particles, one of them outside the grid. *)
Lemma hash_particles_idempotent_witness :
  exists s1 : simulation,
    hash_particles sample_two = Some s1 /\ hash_particles s1 = Some s1.
Proof.
  destruct (hash_particles sample_two) as [s1|] eqn:E.
  - exists s1. split; [reflexivity|].
    apply (hash_particles_idempotent sample_two s1 E).
  - exfalso.
    apply (f_equal (fun o => match o with Some _ => true | None => false end)) in E.
    vm_compute in E. discriminate.
Defined.

End HashAgain.

Section MoreDriver.

(** X2: [time_step()] runs a substep of the size the driver computes,
    capped at 0.033: the size is at most 0.033 unless the computed size is
    a NaN, which [std::min] passes on, and it is 0.033 when every particle
    is at rest and the cell size and the CFL number are positive. *)
Theorem time_step_default_capped (ps : pressure_solver) (s : simulation) :
  time_step_default ps s = time_step ps (default_step s) s /\
  (is_nan (substep_bound s) = false -> fle (default_step s) f0033 = true) /\
  (is_nan (substep_bound s) = true -> is_nan (default_step s) = true) /\
  (at_rest s -> is_positive (cell_size s) = true ->
   is_positive (cfl_number s) = true -> default_step s = f0033).
Proof.
  split; [reflexivity|]. unfold default_step, fmin. split; [|split].
  - intros Hn. destruct (flt f0033 (substep_bound s)) eqn:E.
    + reflexivity.
    + apply flt_false_fle; [reflexivity|exact Hn|exact E].
  - intros Hn. destruct (substep_bound s); try discriminate. reflexivity.
  - intros Hr Hc Hn. rewrite (substep_bound_at_rest s Hr Hc Hn). reflexivity.
Qed.

Lemma time_step_default_capped_witness :
  default_step (sample_centered pic vzero) = f0033 /\
  fle (default_step (sample_centered pic (Vec3 (of_Z 1000) f0 f0))) f0033 = true.
Proof.
  destruct (time_step_default_capped no_pressure (sample_centered pic vzero))
    as (_ & _ & _ & H).
  destruct (time_step_default_capped no_pressure
              (sample_centered pic (Vec3 (of_Z 1000) f0 f0))) as (_ & H' & _).
  split.
  - apply H; [unfold at_rest; vm_compute; repeat constructor| |]; by_computation.
  - apply H'. by_computation.
Defined.

Lemma unbounded_time_step (dt ts : double) :
  unbounded_time dt = true ->
  flt dt ts = false /\ unbounded_time (fsub dt ts) = true.
Proof.
  destruct dt as [| [|] | |]; try discriminate; intros _;
    destruct ts as [| [|] | |]; split; reflexivity.
Qed.

(** X3: with a remaining time of plus infinity or a NaN, [update] never
    returns: the test [ts > dt] is never true and the remaining time stays
    what it is, so the run goes on until a substep is undefined. *)
Theorem update_unbounded_time (ps : pressure_solver) (fuel : nat) :
  forall (dt : double) (s : simulation),
    unbounded_time dt = true -> returned (update ps fuel dt s).2 = false.
Proof.
  induction fuel as [|fuel IH]; intros dt s H; [reflexivity|].
  rewrite update_unfold.
  destruct (unbounded_time_step dt (substep_bound s) H) as [-> H'].
  destruct (time_step ps (substep_bound s) s) as [s'|]; [|reflexivity].
  apply IH, H'.
Qed.

Lemma update_unbounded_time_witness :
  returned (update no_pressure 3 S754_nan (sample_centered pic vzero)).2 = false /\
  returned (update no_pressure 3 finf (sample_centered pic vzero)).2 = false.
Proof.
  split; apply update_unbounded_time; reflexivity.
Defined.

(** X4: when [update] returns, the last substep it ran has the size of the
    time that remained, the remaining time being the time it was given less
    the sizes of the earlier substeps, subtracted in order; every earlier
    substep had the size the driver computed, which was not above the time
    remaining then; and the run took no more substeps than turns of the
    loop. *)
Theorem update_last_substep (ps : pressure_solver) (fuel : nat) :
  forall (dt : double) (s s' : simulation) (l : list double),
    update ps fuel dt s = (l, Returned s') ->
    exists earlier : list double,
      l = earlier ++ [fold_left fsub earlier dt] /\
      (forall (k : nat) (t : double),
         earlier !! k = Some t ->
         flt (fold_left fsub (take k earlier) dt) t = false) /\
      (length l <= fuel)%nat.
Proof.
  induction fuel as [|fuel IH]; intros dt s s' l H; [discriminate|].
  rewrite update_unfold in H.
  destruct (flt dt (substep_bound s)) eqn:Ef.
  - injection H as <- _. exists []. split; [reflexivity|].
    split; [intros k t Hk; rewrite lookup_nil in Hk; discriminate|simpl; lia].
  - destruct (time_step ps (substep_bound s) s) as [s1|]; [|discriminate].
    destruct (update ps fuel (fsub dt (substep_bound s)) s1) as [l1 o] eqn:E.
    simpl in H. injection H as <- ->.
    destruct (IH _ _ _ _ E) as (earlier & -> & Hk & Hl).
    exists (substep_bound s :: earlier). split; [reflexivity|]. split.
    + intros [|k] t Ht; simpl in Ht.
      * injection Ht as <-. exact Ef.
      * simpl. apply Hk, Ht.
    + simpl. rewrite length_app in *. simpl in *. lia.
Qed.

Lemma update_last_substep_witness :
  exists earlier : list double,
    (update no_pressure 5 (of_Z 3) (sample_centered pic (Vec3 f1 f0 f0))).1 =
      earlier ++ [fold_left fsub earlier (of_Z 3)].
Proof.
  assert (Hr : returned (update no_pressure 5 (of_Z 3)
                           (sample_centered pic (Vec3 f1 f0 f0))).2 = true)
    by by_computation.
  destruct (update no_pressure 5 (of_Z 3) (sample_centered pic (Vec3 f1 f0 f0)))
    as [l [s'| |]] eqn:E; try discriminate Hr.
  destruct (update_last_substep _ _ _ _ _ _ E) as (earlier & H & _).
  exists earlier. exact H.
Defined.

End MoreDriver.

Section Idempotence.

Lemma fmax_nonneg (m q : double) :
  is_nan m = false -> fle f0 m = true ->
  is_nan (fmax m q) = false /\ fle f0 (fmax m q) = true.
Proof.
  unfold fmax.
  destruct m as [[|]|[|]| |[|] mm me]; try discriminate; intros _ _;
    destruct q as [[|]|[|]| |[|] qm qe]; try (split; reflexivity).
  all: destruct (flt _ _) eqn:E; try (split; reflexivity).
  all: try discriminate E.
  all: unfold flt, SFltb, SFcompare in E;
       destruct (Z.compare me qe); try discriminate E;
       destruct (Pos.compare_cont Eq mm qm); discriminate E.
Qed.

Lemma max_speed_fold (ps : list particle) :
  forall m : double,
    is_nan m = false -> fle f0 m = true ->
    let r := fold_left (fun m p => fmax m (squared_length (velocity p))) ps m in
    is_nan r = false /\ fle f0 r = true /\
    fold_left (fun m p => fmax m (squared_length (velocity p)))
      (filter (fun p => has_speed p = true) ps) m = r.
Proof.
  induction ps as [|p ps IH]; intros m Hn Hp; simpl; [repeat split; assumption|].
  destruct (fmax_nonneg m (squared_length (velocity p)) Hn Hp) as [Hn' Hp'].
  destruct (IH _ Hn' Hp') as (H1 & H2 & H3).
  split; [exact H1|]. split; [exact H2|].
  rewrite filter_cons.
  destruct (decide (has_speed p = true)) as [Ht|Hf]; [exact H3|].
  assert (E : is_nan (squared_length (velocity p)) = true)
    by (unfold has_speed in Hf;
        destruct (is_nan (squared_length (velocity p)));
        [reflexivity|exfalso; apply Hf; reflexivity]).
  assert (Hm : fmax m (squared_length (velocity p)) = m).
  { destruct (squared_length (velocity p)); try discriminate E.
    unfold fmax. destruct m; reflexivity. }
  rewrite Hm in H3 |- *. exact H3.
Qed.

(** X5: the maximum [cfl] takes over the squared speeds starts from zero and is
    taken with [std::max]: it is never a NaN and never negative, and a
    particle whose squared speed is a NaN has no part in it. *)
Theorem cfl_maximum_ignores_nan (s : simulation) :
  cfl s = fdiv (cell_size s) (fsqrt (max_squared_speed s)) /\
  is_nan (max_squared_speed s) = false /\
  fle f0 (max_squared_speed s) = true /\
  cfl (set_particles s (filter (fun p => has_speed p = true) (_particles s))) =
    cfl s.
Proof.
  split; [reflexivity|].
  destruct (max_speed_fold (_particles s) f0 eq_refl eq_refl) as (H1 & H2 & H3).
  split; [exact H1|]. split; [exact H2|].
  unfold cfl. cbn [_particles set_particles cell_size]. rewrite H3. reflexivity.
Qed.


Lemma remove_boundary_velocities_size (g : fluid_grid) :
  get_size (_remove_boundary_velocities g) = get_size g.
Proof.
  unfold _remove_boundary_velocities.
  rewrite for_index_size.
  - rewrite for_index_size; [reflexivity|].
    intros k g'. rewrite for_index_size.
    + rewrite for_index_size; [reflexivity|]. intros; reflexivity.
    + intros; reflexivity.
  - intros j g'. rewrite for_index_size; [reflexivity|]. intros; reflexivity.
Qed.

(** X7: zeroing the boundary velocities of a grid whose boundary velocities are
    zeroed changes no cell. *)
Theorem remove_boundary_velocities_idempotent (g : fluid_grid) (idx : vec3s) :
  valid_size (get_size g) -> in_grid (get_size g) idx ->
  get_size (_remove_boundary_velocities g) = get_size g /\
  cells (_remove_boundary_velocities (_remove_boundary_velocities g)) idx =
    cells (_remove_boundary_velocities g) idx.
Proof.
  intros Hv Hi. split; [apply remove_boundary_velocities_size|].
  rewrite remove_boundary_velocities_cells;
    rewrite ?remove_boundary_velocities_size; try assumption.
  rewrite remove_boundary_velocities_cells by assumption.
  unfold boundary_removed. cbn [cell_type velocities_posface x y z].
  destruct (x idx =? x (get_size g) - 1), (y idx =? y (get_size g) - 1),
    (z idx =? z (get_size g) - 1); reflexivity.
Qed.

Lemma remove_boundary_velocities_idempotent_witness :
  cells (_remove_boundary_velocities
           (_remove_boundary_velocities (_grid sample_solid))) (Vec3 3 0 3) =
    cells (_remove_boundary_velocities (_grid sample_solid)) (Vec3 3 0 3).
Proof.
  apply (remove_boundary_velocities_idempotent (_grid sample_solid) (Vec3 3 0 3)).
  - vm_compute. repeat split; discriminate.
  - vm_compute. repeat split; discriminate.
Defined.

(** X8: [_clamp] returns an index between the bounds; it reports a change for
    every value outside [min, max), the maximum itself included, and
    returns the value when it reports none. *)
Theorem clamp_range (val min max : Z) :
  min <= max ->
  min <= (_clamp val min max).1 <= max /\
  ((_clamp val min max).2 = false <-> min <= val < max) /\
  ((_clamp val min max).2 = false -> (_clamp val min max).1 = val) /\
  _clamp max min max = (max, true).
Proof.
  intros H. unfold _clamp.
  destruct (val <? min) eqn:E1; [|destruct (max <=? val) eqn:E2]; simpl;
    (split; [lia|]); (split; [split; [try discriminate; lia|lia]|]);
    (split; [try discriminate; reflexivity|]).
  all: destruct (max <? min) eqn:E3; [lia|];
       rewrite Z.leb_refl; reflexivity.
Qed.

Lemma clamp_range_witness :
  _clamp 3 0 3 = (3, true) /\ (_clamp 2 0 3).1 = 2.
Proof.
  destruct (clamp_range 2 0 3 ltac:(lia)) as (_ & H & H' & _).
  destruct (clamp_range 3 0 3 ltac:(lia)) as (_ & _ & _ & H3).
  split; [exact H3|]. apply H'. apply H. lia.
Defined.

End Idempotence.
